(** * Dash elements: the checkbox and the listbox/option pair

    A shallow embedding of [dash-checkbox.js] and [dash-listbox.js].
    An element is modelled by its attribute map (the DOM's
    [getAttribute]/[setAttribute]/[removeAttribute] surface), the own
    properties its class reads, and the list of events it has dispatched.
    Custom-element reactions ([attributeChangedCallback] for observed
    attributes) run synchronously inside [setAttribute]/[removeAttribute],
    as they do in the DOM. *)

From stdpp Require Import gmap strings list fin_maps pretty.

Local Open Scope string_scope.
Local Open Scope Z_scope.

(** ** JavaScript values *)

(** IEEE doubles enter the program only through values supplied by callers
    (the argument of a setter); what the program needs of them is listed
    here.  The theorems of the sections below are stated for an arbitrary
    implementation of this interface; the runs on concrete elements use
    the instance [integer_number]. *)
Class JsNumber := {
  number : Type;
  (** [Number::equal]: false on NaN, true on +0 and -0. *)
  number_equal : number → number → bool;
  (** [ToBoolean] on a number: false on +0, -0 and NaN. *)
  number_to_boolean : number → bool;
  (** [StringToNumber]. *)
  StringToNumber : string → number;
  (** [ToNumber] on a boolean: 1 and +0. *)
  BooleanToNumber : bool → number;
}.

Section Values.
Context `{JsNumber}.

(** The primitive values other than Symbol and BigInt.  Objects are left
    out: coercing one runs its [valueOf]/[toString]. *)
Inductive value :=
| JUndefined
| JNull
| JBool (b : bool)
| JNum (n : number)
| JStr (s : string).

(** [Boolean(v)], that is [ToBoolean]. *)
Definition to_boolean (v : value) : bool :=
  match v with
  | JUndefined | JNull => false
  | JBool b => b
  | JNum n => number_to_boolean n
  | JStr s => negb (String.eqb s EmptyString)
  end.

(** [n == y] for a number [n]. *)
Definition number_loose_eq (n : number) (y : value) : bool :=
  match y with
  | JNum m => number_equal n m
  | JStr s => number_equal n (StringToNumber s)
  | JBool b => number_equal n (BooleanToNumber b)
  | JUndefined | JNull => false
  end.

(** [x == y], following [IsLooselyEqual]. *)
Definition loose_eq (x y : value) : bool :=
  match x, y with
  | (JUndefined | JNull), (JUndefined | JNull) => true
  | (JUndefined | JNull), _ => false
  | JNum n, _ => number_loose_eq n y
  | JStr s, JStr t => String.eqb s t
  | JStr s, JNum m => number_equal (StringToNumber s) m
  | JStr s, JBool b => number_equal (StringToNumber s) (BooleanToNumber b)
  | JStr s, (JUndefined | JNull) => false
  | JBool a, JBool b => Bool.eqb a b
  | JBool a, _ => number_loose_eq (BooleanToNumber a) y
  end.

(** [String(b)] for a boolean, as [setAttribute] converts its argument. *)
Definition boolean_to_string (b : bool) : string :=
  if b then "true" else "false".

(** The result of [getAttribute] as a value: a string, or [null]. *)
Definition attribute_value (a : option string) : value :=
  match a with
  | Some s => JStr s
  | None => JNull
  end.

(** A [CustomEvent] with a one-entry [detail] object. *)
Record CustomEvent := {
  event_type : string;
  detail : string * value;
  bubbles : bool;
}.

(** The fields of a keyboard event the handlers read, and the flag
    [preventDefault] sets. *)
Record KeyboardEvent := {
  altKey : bool;
  keyCode : Z;
  defaultPrevented : bool;
}.

Definition preventDefault (event : KeyboardEvent) : KeyboardEvent :=
  {| altKey := altKey event; keyCode := keyCode event; defaultPrevented := true |}.

Definition keydown (alt : bool) (code : Z) : KeyboardEvent :=
  {| altKey := alt; keyCode := code; defaultPrevented := false |}.
End Values.

Arguments value {_}.
Arguments CustomEvent {_}.

(** A fragment of the JavaScript numbers to run the definitions on:
    integer-valued numbers and NaN ([None]), with [StringToNumber] reading
    the empty string as 0 and an optionally signed run of decimal digits;
    any other notation reads as NaN here. *)
Module IntegerNumber.
Definition digit (c : Ascii.ascii) : option Z :=
  let n := Z.of_nat (Ascii.nat_of_ascii c) in
  if (48 <=? n) && (n <=? 57) then Some (n - 48) else None.

Fixpoint digits (acc : Z) (s : string) : option Z :=
  match s with
  | EmptyString => Some acc
  | String c s' =>
      match digit c with
      | Some d => digits (10 * acc + d) s'
      | None => None
      end
  end.

Definition parse (s : string) : option Z :=
  match s with
  | EmptyString => Some 0
  | String c s' =>
      let n := Z.of_nat (Ascii.nat_of_ascii c) in
      if String.eqb s' EmptyString then digits 0 s
      else if n =? 45 then Z.opp <$> digits 0 s'
      else if n =? 43 then digits 0 s'
      else digits 0 s
  end.

Definition equal (a b : option Z) : bool :=
  match a, b with
  | Some x, Some y => x =? y
  | _, _ => false
  end.

Definition truthy (a : option Z) : bool :=
  match a with
  | Some x => negb (x =? 0)
  | None => false
  end.
End IntegerNumber.

#[export] Instance integer_number : JsNumber := {|
  number := option Z;
  number_equal := IntegerNumber.equal;
  number_to_boolean := IntegerNumber.truthy;
  StringToNumber := IntegerNumber.parse;
  BooleanToNumber := λ b, Some (if b then 1 else 0);
|}.

(** ** dash-checkbox.js *)

Module Checkbox.
Section Checkbox.
Context `{JsNumber}.

(** [KEYCODE.SPACE] *)
Definition SPACE : Z := 32.

(** A [DashCheckbox] element: its attributes, the own property
    [_disabled] that the [disabled] getter reads, whether it is
    [document.activeElement], and the events it has dispatched. *)
Record DashCheckbox := {
  attributes : gmap string string;
  _disabled : value;
  focused : bool;
  dispatched : list CustomEvent;
}.

Definition with_attributes (m : gmap string string) (this : DashCheckbox) : DashCheckbox :=
  {| attributes := m; _disabled := _disabled this;
     focused := focused this; dispatched := dispatched this |}.

(** What [document.createElement('dash-checkbox')] gives: the class has
    no constructor and no field initialiser. *)
Definition created : DashCheckbox :=
  {| attributes := ∅; _disabled := JUndefined; focused := false; dispatched := [] |}.

Definition hasAttribute (name : string) (this : DashCheckbox) : bool :=
  match attributes this !! name with
  | Some _ => true
  | None => false
  end.

(** [HTMLElement.blur()] *)
Definition blur (this : DashCheckbox) : DashCheckbox :=
  {| attributes := attributes this; _disabled := _disabled this;
     focused := false; dispatched := dispatched this |}.

(** [HTMLElement.focus()], or the user moving focus to the element. *)
Definition focus (this : DashCheckbox) : DashCheckbox :=
  {| attributes := attributes this; _disabled := _disabled this;
     focused := true; dispatched := dispatched this |}.

Definition dispatchEvent (e : CustomEvent) (this : DashCheckbox) : DashCheckbox :=
  {| attributes := attributes this; _disabled := _disabled this;
     focused := focused this; dispatched := dispatched this ++ [e] |}.

(** The attribute list updated with no reaction: what [setAttribute] and
    [removeAttribute] do for a name outside [observedAttributes]. *)
Definition set_attr (name val : string) (this : DashCheckbox) : DashCheckbox :=
  with_attributes (<[name := val]> (attributes this)) this.

Definition remove_attr (name : string) (this : DashCheckbox) : DashCheckbox :=
  with_attributes (delete name (attributes this)) this.

(** [static get observedAttributes()] *)
Definition observedAttributes : list string := ["checked"; "disabled"].

(** [attributeChangedCallback(name, oldValue, newValue)].  The attributes
    it sets and removes ([aria-checked], [aria-disabled], [tabindex]) are
    not observed, so no reaction nests. *)
Definition attributeChangedCallback
    (name : string) (oldValue newValue : option string) (this : DashCheckbox)
    : DashCheckbox :=
  if String.eqb name "checked" then
    set_attr "aria-checked" (boolean_to_string (bool_decide (newValue ≠ None))) this
  else if String.eqb name "disabled" then
    let isDisabled := bool_decide (newValue ≠ None) in
    let this := set_attr "aria-disabled" (boolean_to_string isDisabled) this in
    if isDisabled then
      let this := remove_attr "tabindex" this in
      if focused this then blur this else this
    else
      set_attr "tabindex" "0" this
  else this.

(** [Element.setAttribute]: the attribute is set and, for an observed
    name, the callback runs with the old and the new value. *)
Definition setAttribute (name val : string) (this : DashCheckbox) : DashCheckbox :=
  let oldValue := attributes this !! name in
  let this := set_attr name val this in
  if bool_decide (name ∈ observedAttributes)
  then attributeChangedCallback name oldValue (Some val) this
  else this.

(** [Element.removeAttribute]: nothing happens for an absent attribute. *)
Definition removeAttribute (name : string) (this : DashCheckbox) : DashCheckbox :=
  match attributes this !! name with
  | None => this
  | Some old =>
      let this := remove_attr name this in
      if bool_decide (name ∈ observedAttributes)
      then attributeChangedCallback name (Some old) None this
      else this
  end.

(** [connectedCallback()]; the listeners it installs are [_onKeyDown]
    and [_onClick] below. *)
Definition connectedCallback (this : DashCheckbox) : DashCheckbox :=
  let this := if hasAttribute "role" this then this
              else setAttribute "role" "checkbox" this in
  if hasAttribute "tabindex" this then this
  else setAttribute "tabindex" "0" this.

(** [set checked(value)] *)
Definition set_checked (v : value) (this : DashCheckbox) : DashCheckbox :=
  let isChecked := to_boolean v in
  if isChecked then setAttribute "checked" EmptyString this
  else removeAttribute "checked" this.

(** [get checked()] *)
Definition get_checked (this : DashCheckbox) : bool :=
  hasAttribute "checked" this.

(** [set disabled(value)] *)
Definition set_disabled (v : value) (this : DashCheckbox) : DashCheckbox :=
  let isDisabled := to_boolean v in
  let this := if isDisabled then setAttribute "disabled" EmptyString this
              else removeAttribute "disabled" this in
  if isDisabled then
    let this := removeAttribute "tabindex" this in
    if focused this then blur this else this
  else
    setAttribute "tabindex" "0" this.

(** [get disabled()]: [return this._disabled]. *)
Definition get_disabled (this : DashCheckbox) : value :=
  _disabled this.

(** [_toggleChecked()] *)
Definition _toggleChecked (this : DashCheckbox) : DashCheckbox :=
  if to_boolean (get_disabled this) then this
  else
    let this := set_checked (JBool (negb (get_checked this))) this in
    dispatchEvent
      {| event_type := "change";
         detail := ("checked", JBool (get_checked this));
         bubbles := true |}
      this.

(** [_onKeyDown(event)] *)
Definition _onKeyDown (event : KeyboardEvent) (this : DashCheckbox)
    : KeyboardEvent * DashCheckbox :=
  if altKey event then (event, this)
  else if keyCode event =? SPACE then
    let event := preventDefault event in
    (event, _toggleChecked this)
  else (event, this).

(** [_onClick(event)] *)
Definition _onClick (this : DashCheckbox) : DashCheckbox :=
  _toggleChecked this.

(** What can happen to a checkbox: the document connects it, a script
    uses a property or an attribute, the user focuses, clicks or presses
    a key. *)
Inductive action :=
| Connect
| SetChecked (v : value)
| SetDisabled (v : value)
| SetAttribute (name val : string)
| RemoveAttribute (name : string)
| Focus
| Click
| KeyDown (event : KeyboardEvent).

Definition perform (a : action) (this : DashCheckbox) : DashCheckbox :=
  match a with
  | Connect => connectedCallback this
  | SetChecked v => set_checked v this
  | SetDisabled v => set_disabled v this
  | SetAttribute name val => setAttribute name val this
  | RemoveAttribute name => removeAttribute name this
  | Focus => focus this
  | Click => _onClick this
  | KeyDown event => (_onKeyDown event this).2
  end.

(** [run l this]: the actions of [l] in order, from the left. *)
Definition run (l : list action) (this : DashCheckbox) : DashCheckbox :=
  foldl (λ this a, perform a this) this l.

(** The names [attributeChangedCallback] leaves alone: it writes
    [aria-checked], [aria-disabled] and [tabindex] only. *)
Definition left_alone (k : string) : Prop :=
  k ≠ "aria-checked" ∧ k ≠ "aria-disabled" ∧ k ≠ "tabindex".



(** The action is a toggle by the user: a click, or a press of the space
    key without Alt. *)
Definition toggles (a : action) : bool :=
  match a with
  | Click => true
  | KeyDown event => negb (altKey event) && (keyCode event =? SPACE)
  | _ => false
  end.
End Checkbox.
End Checkbox.

(** ** dash-listbox.js: [DashOption] *)

Module ListboxOption.
Section ListboxOption.
Context `{JsNumber}.

(** A [DashOption] element, by its attributes. *)
Record DashOption := { attributes : gmap string string }.

Definition hasAttribute (name : string) (this : DashOption) : bool :=
  match attributes this !! name with
  | Some _ => true
  | None => false
  end.

Definition getAttribute (name : string) (this : DashOption) : option string :=
  attributes this !! name.

Definition set_attr (name val : string) (this : DashOption) : DashOption :=
  {| attributes := <[name := val]> (attributes this) |}.

Definition remove_attr (name : string) (this : DashOption) : DashOption :=
  {| attributes := delete name (attributes this) |}.

(** [static get observedAttributes()] *)
Definition observedAttributes : list string := ["selected"].

(** [attributeChangedCallback(name, oldValue, newValue)]; [aria-selected]
    is not observed, so no reaction nests. *)
Definition attributeChangedCallback
    (name : string) (oldValue newValue : option string) (this : DashOption)
    : DashOption :=
  if String.eqb name "selected" then
    set_attr "aria-selected" (boolean_to_string (bool_decide (newValue ≠ None))) this
  else this.

Definition setAttribute (name val : string) (this : DashOption) : DashOption :=
  let oldValue := attributes this !! name in
  let this := set_attr name val this in
  if bool_decide (name ∈ observedAttributes)
  then attributeChangedCallback name oldValue (Some val) this
  else this.

Definition removeAttribute (name : string) (this : DashOption) : DashOption :=
  match attributes this !! name with
  | None => this
  | Some old =>
      let this := remove_attr name this in
      if bool_decide (name ∈ observedAttributes)
      then attributeChangedCallback name (Some old) None this
      else this
  end.

(** [set selected(value)] *)
Definition set_selected (v : value) (this : DashOption) : DashOption :=
  let isSelected := to_boolean v in
  if isSelected then setAttribute "selected" EmptyString this
  else removeAttribute "selected" this.

(** [get selected()] *)
Definition get_selected (this : DashOption) : bool :=
  hasAttribute "selected" this.

(** [get value()]: a string, or [null] without the attribute. *)
Definition get_value (this : DashOption) : value :=
  attribute_value (getAttribute "value" this).

(** [Element.id]: the [id] attribute, the empty string without it. *)
Definition get_id (this : DashOption) : string :=
  default EmptyString (getAttribute "id" this).
End ListboxOption.
End ListboxOption.

(** ** dash-listbox.js: [DashListbox] *)

Module Listbox.
Import ListboxOption.
Section Listbox.
Context `{JsNumber}.

(** [KEYCODE] *)
Definition UP : Z := 38.
Definition DOWN : Z := 40.
Definition LEFT : Z := 37.
Definition RIGHT : Z := 39.
Definition HOME : Z := 36.
Definition END : Z := 35.

(** A [DashListbox] element: its own attributes, its [dash-option]
    descendants in document order (what [querySelectorAll('dash-option')]
    finds), and the events it has dispatched. *)
Record DashListbox := {
  attributes : gmap string string;
  options : list DashOption;
  dispatched : list CustomEvent;
}.

(** What a variable that holds an element can hold: [undefined], the
    [i]-th option of [_allOptions()], or an element that is not one of
    them (a click target), given by its attributes. *)
Inductive Ref :=
| Undefined
| OptionAt (i : nat)
| Other (e : DashOption).

Inductive Error := TypeError.

Inductive Completion (A : Type) :=
| Normal (a : A)
| Throw (e : Error).
Global Arguments Normal {A} a.
Global Arguments Throw {A} e.

(** A method of the listbox: it runs on the element, may change it, and
    returns or throws; what it changed before throwing stays changed. *)
Definition M (A : Type) : Type := DashListbox → Completion A * DashListbox.

#[export] Instance M_ret : MRet M := λ A (a : A) this, (Normal a, this).

#[export] Instance M_bind : MBind M := λ A B (f : A → M B) (m : M A) this,
  match m this with
  | (Normal a, this) => f a this
  | (Throw e, this) => (Throw e, this)
  end.

Definition throw {A} (e : Error) : M A := λ this, (Throw e, this).

Definition gets {A} (f : DashListbox → A) : M A := λ this, (Normal (f this), this).

Definition modify (f : DashListbox → DashListbox) : M unit := λ this, (Normal tt, f this).

(** The element a reference stands for; an index past the end stands for
    none. *)
Definition element (r : Ref) (this : DashListbox) : option DashOption :=
  match r with
  | Undefined => None
  | OptionAt i => options this !! i
  | Other e => Some e
  end.

(** [r.p]: reading a property of [undefined] throws. *)
Definition read {A} (r : Ref) (p : DashOption → A) : M A :=
  e ← gets (element r);
  match e with
  | Some o => mret (p o)
  | None => throw TypeError
  end.

(** [r.p = v] through a setter [p]: it throws on [undefined]; on an
    element outside the listbox it changes nothing here. *)
Definition write (r : Ref) (p : DashOption → DashOption) : M unit :=
  e ← gets (element r);
  match r, e with
  | OptionAt i, Some _ =>
      modify (λ this,
        {| attributes := attributes this;
           options := alter p i (options this);
           dispatched := dispatched this |})
  | Other _, _ => mret tt
  | _, _ => throw TypeError
  end.

(** [this.setAttribute(name, val)]; the listbox observes no attribute. *)
Definition setAttribute (name val : string) : M unit :=
  modify (λ this,
    {| attributes := <[name := val]> (attributes this);
       options := options this;
       dispatched := dispatched this |}).

(** [a || b] on references: an element is truthy. *)
Definition or_else (a b : Ref) : Ref :=
  match a with
  | Undefined => b
  | _ => a
  end.

(** [options.find(p)] *)
Definition find (p : DashOption → bool) (options : list DashOption) : Ref :=
  match list_find (λ o, Is_true (p o)) options with
  | Some (i, _) => OptionAt i
  | None => Undefined
  end.

(** [options.findIndex(p)] *)
Definition findIndex (p : DashOption → bool) (options : list DashOption) : Z :=
  match list_find (λ o, Is_true (p o)) options with
  | Some (i, _) => Z.of_nat i
  | None => -1
  end.

(** [a % b] on integers: the sign of the dividend, [NaN] ([None]) for a
    zero divisor.  A result of -0 is read as 0, which is the same array
    index. *)
Definition js_rem (a b : Z) : option Z :=
  if b =? 0 then None else Some (Z.rem a b).

(** [options[k]]: [undefined] unless [k] is an index of the array. *)
Definition index (options : list DashOption) (k : option Z) : Ref :=
  match k with
  | Some z =>
      if (0 <=? z) && (z <? Z.of_nat (length options))
      then OptionAt (Z.to_nat z) else Undefined
  | None => Undefined
  end.

(** [_allOptions()] *)
Definition _allOptions (this : DashListbox) : list DashOption := options this.

(** [_selectedOption()] *)
Definition _selectedOption (this : DashListbox) : Ref :=
  find get_selected (_allOptions this).

(** [_prevOption()] *)
Definition _prevOption (this : DashListbox) : Ref :=
  let options := _allOptions this in
  let newIdx := findIndex get_selected options - 1 in
  index options (js_rem (newIdx + Z.of_nat (length options)) (Z.of_nat (length options))).

(** [_nextOption()] *)
Definition _nextOption (this : DashListbox) : Ref :=
  let options := _allOptions this in
  let newIdx := findIndex get_selected options + 1 in
  index options (js_rem newIdx (Z.of_nat (length options))).

(** [_firstOption()] *)
Definition _firstOption (this : DashListbox) : Ref :=
  let options := _allOptions this in
  index options (Some 0).

(** [_lastOption()] *)
Definition _lastOption (this : DashListbox) : Ref :=
  let options := _allOptions this in
  index options (Some (Z.of_nat (length options) - 1)).

(** [reset()] *)
Definition reset : M unit :=
  modify (λ this,
    {| attributes := attributes this;
       options := set_selected (JBool false) <$> options this;
       dispatched := dispatched this |}).

(** [_selectOption(newOption)] *)
Definition _selectOption (newOption : Ref) : M unit :=
  reset;;
  write newOption (set_selected (JBool true));;
  id ← read newOption get_id;
  setAttribute "aria-activedescendant" id.

(** [set value(val)] *)
Definition set_value (val : value) : M unit :=
  newOption ← gets (λ this, find (λ option, loose_eq (get_value option) val) (_allOptions this));
  match newOption with
  | Undefined => reset
  | _ => _selectOption newOption
  end.

(** [get value()] *)
Definition get_value : M value :=
  option ← gets _selectedOption;
  match option with
  | Undefined => mret (JStr EmptyString)
  | _ => read option ListboxOption.get_value
  end.

(** [_dispatch(event)] *)
Definition _dispatch (event : string) : M unit :=
  v ← get_value;
  modify (λ this,
    {| attributes := attributes this;
       options := options this;
       dispatched := dispatched this ++
         [{| event_type := event; detail := ("value", v); bubbles := true |}] |}).

(** [_onFocus(event)] *)
Definition _onFocus : M unit :=
  selectedOption ← gets (λ this, or_else (_selectedOption this) (_firstOption this));
  id ← read selectedOption get_id;
  setAttribute "aria-activedescendant" id;;
  _dispatch "input".

(** [_onKeyDown(event)]: the [switch] picks the navigation, or returns. *)
Definition _onKeyDown (event : KeyboardEvent) (this : DashListbox)
    : Completion unit * KeyboardEvent * DashListbox :=
  if altKey event then (Normal tt, event, this)
  else
    let code := keyCode event in
    let navigation :=
      if (code =? UP) || (code =? LEFT) then Some _prevOption
      else if (code =? DOWN) || (code =? RIGHT) then Some _nextOption
      else if code =? HOME then Some _firstOption
      else if code =? END then Some _lastOption
      else None in
    match navigation with
    | None => (Normal tt, event, this)
    | Some navigate =>
        let newOption := navigate this in
        let event := preventDefault event in
        let '(result, this) := (_selectOption newOption;; _dispatch "input") this in
        (result, event, this)
    end.

(** [_onClick(event)], with [event.target] as [target]. *)
Definition _onClick (target : Ref) : M unit :=
  role ← read target (getAttribute "role");
  if bool_decide (role ≠ Some "option") then mret tt
  else
    _selectOption target;;
    _dispatch "input".

(** *** Vocabulary of the properties *)

(** How many options have [selected] true. *)
Definition selected_count (this : DashListbox) : nat :=
  length (filter (λ o, Is_true (get_selected o)) (options this)).

(** [selected] of each option, in document order. *)
Definition selection (this : DashListbox) : list bool :=
  get_selected <$> options this.

(** [val] finds the option [o]: the test of the [value] setter. *)
Definition matches (val : value) (o : DashOption) : bool :=
  loose_eq (ListboxOption.get_value o) val.

(** Some option of the listbox is found by [val]. *)
Definition matched (val : value) (this : DashListbox) : Prop :=
  ∃ o, o ∈ options this ∧ matches val o = true.

(** The listbox with its options replaced. *)
Definition with_options (l : list DashOption) (this : DashListbox) : DashListbox :=
  {| attributes := attributes this; options := l; dispatched := dispatched this |}.

(** Selecting the result of [_nextOption()], of [_prevOption()]: what the
    key handler does on Down/Right and on Up/Left, before it dispatches. *)
Definition select_next : M unit :=
  newOption ← gets _nextOption;
  _selectOption newOption.

Definition select_prev : M unit :=
  newOption ← gets _prevOption;
  _selectOption newOption.

(** [m] run [n] times in a row. *)
Fixpoint times (n : nat) (m : M unit) : M unit :=
  match n with
  | O => mret tt
  | S n => m;; times n m
  end.

(** The calls that change the selection. *)
Inductive operation :=
| SelectOption (target : Ref)
| Reset
| SetValue (val : value).

Definition perform (op : operation) : M unit :=
  match op with
  | SelectOption target => _selectOption target
  | Reset => reset
  | SetValue val => set_value val
  end.

(** The listbox after the calls of [ops], one after the other; a call
    that throws leaves the listbox as it was at the throw. *)
Definition run (ops : list operation) (this : DashListbox) : DashListbox :=
  foldl (λ this op, (perform op this).2) this ops.

(** *** Elements to run the definitions on *)

(** [<dash-option value=v>], with [selected] when [sel]; no [value]
    attribute for [None]. *)
Definition option_element (sel : bool) (v : option string) : DashOption :=
  let a : gmap string string :=
    match v with
    | Some s => {[ "value" := s ]}
    | None => ∅
    end in
  {| ListboxOption.attributes := if sel then <[ "selected" := EmptyString ]> a else a |}.

(** A listbox with the options [l], no attribute and no event so far. *)
Definition listbox_of (l : list DashOption) : DashListbox :=
  {| attributes := ∅; options := l; dispatched := [] |}.

(** What a call that changes the selection leaves as it was: the options
    there are, their values and identifiers, the events dispatched, and
    every attribute of the listbox but [aria-activedescendant]. *)
Definition preserved (this this' : DashListbox) : Prop :=
  length (options this') = length (options this)
  ∧ ListboxOption.get_value <$> options this' = ListboxOption.get_value <$> options this
  ∧ get_id <$> options this' = get_id <$> options this
  ∧ dispatched this' = dispatched this
  ∧ ∀ k, k ≠ "aria-activedescendant" → attributes this' !! k = attributes this !! k.

(** The [input] event that carries the value [v]. *)
Definition input_event (v : value) : CustomEvent :=
  {| event_type := "input"; detail := ("value", v); bubbles := true |}.
End Listbox.
End Listbox.

(** ** The elements in a document: connection, listeners, own properties *)

(** *** dash-checkbox.js: [connectedCallback], [disconnectedCallback] *)

Module CheckboxHost.
Import Checkbox.
Section CheckboxHost.
Context `{JsNumber}.

(** A checkbox with the event types it listens to.  Both callbacks are
    methods of the prototype, the same function on every call, so
    [addEventListener] called again for a type adds nothing. *)
Record Host := {
  element : DashCheckbox;
  listeners : gset string;
}.

(** [connectedCallback()] *)
Definition connectedCallback (this : Host) : Host :=
  {| element := Checkbox.connectedCallback (element this);
     listeners := listeners this ∪ {["keydown"]} ∪ {["click"]} |}.

(** [disconnectedCallback()] *)
Definition disconnectedCallback (this : Host) : Host :=
  {| element := element this;
     listeners := listeners this ∖ {["keydown"]} ∖ {["click"]} |}.

(** What the user does to the element. *)
Inductive input :=
| Pointer
| Key (event : KeyboardEvent).

(** The event reaches the listener installed for its type, if any. *)
Definition deliver (i : input) (this : Host) : Host :=
  match i with
  | Pointer =>
      if bool_decide ("click" ∈ listeners this)
      then {| element := _onClick (element this); listeners := listeners this |}
      else this
  | Key event =>
      if bool_decide ("keydown" ∈ listeners this)
      then {| element := (_onKeyDown event (element this)).2; listeners := listeners this |}
      else this
  end.

(** A checkbox created by a script, not yet in the document. *)
Definition created : Host :=
  {| element := Checkbox.created; listeners := ∅ |}.
End CheckboxHost.
End CheckboxHost.

(** *** dash-listbox.js: [DashOption] in the document *)

Module OptionHost.
Import ListboxOption.
Section OptionHost.
Context `{JsNumber}.

(** [Number::toString], for a [value] that is set as an attribute. *)
Variable NumberToString : number → string.

(** [ToString], as [setAttribute] converts its second argument. *)
Definition to_string (v : value) : string :=
  match v with
  | JUndefined => "undefined"
  | JNull => "null"
  | JBool b => boolean_to_string b
  | JNum n => NumberToString n
  | JStr s => s
  end.

(** [set value(val)] *)
Definition set_value (val : value) (this : DashOption) : DashOption :=
  setAttribute "value" (to_string val) this.

(** A [DashOption] with the data properties a script has put on the
    instance itself ([_mounted] is one; a [selected] or [value] set before
    the class was defined is another, and hides the accessor of the
    class), and the number of copies of the template in its shadow
    root. *)
Record Host := {
  element : DashOption;
  own : gmap string value;
  shadow : nat;
}.

Definition with_element (e : DashOption) (this : Host) : Host :=
  {| element := e; own := own this; shadow := shadow this |}.

(** [this.hasOwnProperty(prop)] *)
Definition hasOwnProperty (prop : string) (this : Host) : bool :=
  bool_decide (is_Some (own this !! prop)).

(** [this[prop]]: the own property when there is one; else the accessors
    of the class, and [undefined] for any other name. *)
Definition get (prop : string) (this : Host) : value :=
  match own this !! prop with
  | Some v => v
  | None =>
      if String.eqb prop "selected" then JBool (get_selected (element this))
      else if String.eqb prop "value" then ListboxOption.get_value (element this)
      else if String.eqb prop "id" then JStr (get_id (element this))
      else JUndefined
  end.

(** [this[prop] = v]: an own property is overwritten; else the setters of
    the class run ([id] reflects to the attribute), and any other name
    becomes an own property. *)
Definition set (prop : string) (v : value) (this : Host) : Host :=
  match own this !! prop with
  | Some _ =>
      {| element := element this; own := <[prop := v]> (own this); shadow := shadow this |}
  | None =>
      if String.eqb prop "selected" then with_element (set_selected v (element this)) this
      else if String.eqb prop "value" then with_element (set_value v (element this)) this
      else if String.eqb prop "id" then
        with_element (setAttribute "id" (to_string v) (element this)) this
      else
        {| element := element this; own := <[prop := v]> (own this); shadow := shadow this |}
  end.

(** [delete this[prop]] *)
Definition delete_property (prop : string) (this : Host) : Host :=
  {| element := element this; own := delete prop (own this); shadow := shadow this |}.

(** [upgradeProperty(prop)] *)
Definition upgradeProperty (prop : string) (this : Host) : Host :=
  if hasOwnProperty prop this then
    let value := get prop this in
    let this := delete_property prop this in
    set prop value this
  else this.

(** The body of [if (!this._mounted)]: a copy of the template goes into
    the shadow root. *)
Definition mount (this : Host) : Host :=
  let this :=
    {| element := element this; own := own this; shadow := S (shadow this) |} in
  set "_mounted" (JBool true) this.

(** [connectedCallback()], with the module's [dashOptionCounter] passed in
    and out.  The counter is a count of options, far below the integers a
    number no longer tells apart. *)
Definition connectedCallback (this : Host) (dashOptionCounter : nat) : Host * nat :=
  let this := if negb (to_boolean (get "_mounted" this)) then mount this else this in
  let this :=
    if hasAttribute "role" (element this) then this
    else with_element (setAttribute "role" "option" (element this)) this in
  let '(this, dashOptionCounter) :=
    if negb (to_boolean (get "id" this)) then
      (set "id" (JStr ("dash-option-generated-" +:+ pretty dashOptionCounter)) this,
       S dashOptionCounter)
    else (this, dashOptionCounter) in
  let this := upgradeProperty "selected" this in
  let this := upgradeProperty "value" this in
  (this, dashOptionCounter).

(** The options of [l] connected one after the other, in order. *)
Fixpoint connect_all (l : list Host) (dashOptionCounter : nat) : list Host * nat :=
  match l with
  | [] => ([], dashOptionCounter)
  | this :: l =>
      let '(this, dashOptionCounter) := connectedCallback this dashOptionCounter in
      let '(l, dashOptionCounter) := connect_all l dashOptionCounter in
      (this :: l, dashOptionCounter)
  end.

(** An option as the parser or a script hands it over: attributes and own
    properties, nothing in the shadow root. *)
Definition unconnected (e : DashOption) (o : gmap string value) : Host :=
  {| element := e; own := o; shadow := 0 |}.

(** [connectedCallback()] by its result, for an option with no own
    property [id]. *)
Definition connected (this : Host) (dashOptionCounter : nat) : Host * nat :=
  let mounted := to_boolean (default JUndefined (own this !! "_mounted")) in
  let fresh := String.eqb (get_id (element this)) EmptyString in
  let e := element this in
  let e := if hasAttribute "role" e then e else setAttribute "role" "option" e in
  let e :=
    if fresh
    then setAttribute "id" ("dash-option-generated-" +:+ pretty dashOptionCounter) e
    else e in
  let e := match own this !! "selected" with Some v => set_selected v e | None => e end in
  let e := match own this !! "value" with Some v => set_value v e | None => e end in
  ({| element := e;
      own := delete "value" (delete "selected"
               (if mounted then own this else <["_mounted" := JBool true]> (own this)));
      shadow := if mounted then shadow this else S (shadow this) |},
   if fresh then S dashOptionCounter else dashOptionCounter).

(** The option has no identifier yet: no [id] attribute, or an empty
    one. *)
Definition anonymous (this : Host) : bool :=
  String.eqb (get_id (element this)) EmptyString.

(** [Number::toString] on the integers: decimal digits, and ['NaN']. *)
Definition integer_to_string (n : @number integer_number) : string :=
  match n with
  | Some z => pretty z
  | None => "NaN"
  end.
End OptionHost.
End OptionHost.

(** *** dash-listbox.js: [DashListbox] in the document *)

Module ListboxHost.
Import ListboxOption Listbox.
Section ListboxHost.
Context `{JsNumber}.

(** A [DashListbox] with the data properties a script has put on the
    instance itself, the number of copies of the template in its shadow
    root, and the event types it listens to. *)
Record Host := {
  element : DashListbox;
  own : gmap string value;
  shadow : nat;
  listeners : gset string;
}.

Definition with_element (e : DashListbox) (this : Host) : Host :=
  {| element := e; own := own this; shadow := shadow this; listeners := listeners this |}.

Definition with_own (o : gmap string value) (this : Host) : Host :=
  {| element := element this; own := o; shadow := shadow this; listeners := listeners this |}.

(** A method of the host: it returns or throws, as a method of the
    listbox does. *)
Definition HM (A : Type) : Type := Host → Completion A * Host.

#[export] Instance HM_ret : MRet HM := λ A (a : A) this, (Normal a, this).

#[export] Instance HM_bind : MBind HM := λ A B (f : A → HM B) (m : HM A) this,
  match m this with
  | (Normal a, this) => f a this
  | (Throw e, this) => (Throw e, this)
  end.

Definition inspect {A} (f : Host → A) : HM A := λ this, (Normal (f this), this).

Definition update (f : Host → Host) : HM unit := λ this, (Normal tt, f this).

(** A method of the listbox run on the host. *)
Definition lift {A} (m : M A) : HM A := λ this,
  let '(r, e) := m (element this) in (r, with_element e this).

Definition hasAttribute (name : string) (this : Host) : bool :=
  bool_decide (is_Some (attributes (element this) !! name)).

(** [this.hasOwnProperty(prop)] *)
Definition hasOwnProperty (prop : string) (this : Host) : bool :=
  bool_decide (is_Some (own this !! prop)).

(** [this[prop]]: the own property when there is one; else the [value]
    accessor of the class, and [undefined] for any other name. *)
Definition get (prop : string) : HM value :=
  o ← inspect (λ this, own this !! prop);
  match o with
  | Some v => mret v
  | None =>
      if String.eqb prop "value" then lift get_value
      else mret JUndefined
  end.

(** [this[prop] = v]: an own property is overwritten; else the [value]
    setter of the class runs, and any other name becomes an own
    property. *)
Definition set (prop : string) (v : value) : HM unit :=
  o ← inspect (λ this, own this !! prop);
  match o with
  | Some _ => update (λ this, with_own (<[prop := v]> (own this)) this)
  | None =>
      if String.eqb prop "value" then lift (set_value v)
      else update (λ this, with_own (<[prop := v]> (own this)) this)
  end.

(** [upgradeProperty(prop)] *)
Definition upgradeProperty (prop : string) : HM unit :=
  has ← inspect (hasOwnProperty prop);
  if has : bool then
    value ← get prop;
    update (λ this, with_own (delete prop (own this)) this);;
    set prop value
  else mret tt.

(** The body of [if (!this._mounted)]: a copy of the template goes into
    the shadow root. *)
Definition mount : HM unit :=
  update (λ this,
    {| element := element this; own := own this; shadow := S (shadow this);
       listeners := listeners this |});;
  set "_mounted" (JBool true).

(** [connectedCallback()] *)
Definition connectedCallback : HM unit :=
  mounted ← get "_mounted";
  (if negb (to_boolean mounted) then mount else mret tt);;
  role ← inspect (hasAttribute "role");
  (if role : bool then mret tt else lift (setAttribute "role" "listbox"));;
  tabindex ← inspect (hasAttribute "tabindex");
  (if tabindex : bool then mret tt else lift (setAttribute "tabindex" "0"));;
  upgradeProperty "value";;
  update (λ this,
    {| element := element this; own := own this; shadow := shadow this;
       listeners := listeners this ∪ {["focus"]} ∪ {["click"]} ∪ {["keydown"]} |}).

(** [disconnectedCallback()] *)
Definition disconnectedCallback (this : Host) : Host :=
  {| element := element this; own := own this; shadow := shadow this;
     listeners := listeners this ∖ {["focus"]} ∖ {["click"]} ∖ {["keydown"]} |}.

(** The document connects and disconnects the listbox. *)
Inductive move := Connect | Disconnect.

(** The listbox after the moves of [l]; a callback that throws leaves it
    as it was at the throw. *)
Definition moved (l : list move) (this : Host) : Host :=
  foldl (λ this m,
    match m with
    | Connect => (connectedCallback this).2
    | Disconnect => disconnectedCallback this
    end) this l.

(** A listbox as the parser or a script hands it over. *)
Definition unconnected (e : DashListbox) (o : gmap string value) : Host :=
  {| element := e; own := o; shadow := 0; listeners := ∅ |}.

(** The [role] and [tabindex] that [connectedCallback()] gives a listbox
    without them. *)
Definition defaults (e : DashListbox) : DashListbox :=
  let e :=
    if bool_decide (is_Some (attributes e !! "role")) then e
    else (setAttribute "role" "listbox" e).2 in
  if bool_decide (is_Some (attributes e !! "tabindex")) then e
  else (setAttribute "tabindex" "0" e).2.

(** [connectedCallback()] by its result; [set value] does not throw. *)
Definition connected (this : Host) : Host :=
  let mounted := to_boolean (default JUndefined (own this !! "_mounted")) in
  let e := defaults (element this) in
  let e := match own this !! "value" with Some v => (set_value v e).2 | None => e end in
  {| element := e;
     own := delete "value"
              (if mounted then own this else <["_mounted" := JBool true]> (own this));
     shadow := if mounted then shadow this else S (shadow this);
     listeners := listeners this ∪ {["focus"]} ∪ {["click"]} ∪ {["keydown"]} |}.

(** The event types the listbox handles. *)
Definition handled : gset string := {["focus"]} ∪ {["click"]} ∪ {["keydown"]}.

#[export] Instance move_eq_dec : EqDecision move.
Proof. solve_decision. Defined.
End ListboxHost.
End ListboxHost.

(** * Properties of the checkbox *)

Module CheckboxFacts.
Import Checkbox.
Section CheckboxFacts.
Context `{JsNumber}.

Implicit Types (this : DashCheckbox) (v : value) (name val : string).

(** Case analysis on every test a method makes. *)
Ltac split_tests :=
  repeat match goal with
  | |- context [if ?b then _ else _] => destruct b eqn:?
  | |- context [match ?m !! ?k with _ => _ end] => destruct (m !! k) eqn:?
  end.

(** *** Nothing writes [_disabled] *)

Lemma attributeChangedCallback_disabled name old new this :
  _disabled (attributeChangedCallback name old new this) = _disabled this.
Proof. unfold attributeChangedCallback. split_tests; reflexivity. Qed.

Lemma setAttribute_disabled name val this :
  _disabled (setAttribute name val this) = _disabled this.
Proof.
  unfold setAttribute. split_tests; [|reflexivity].
  by rewrite attributeChangedCallback_disabled.
Qed.

Lemma removeAttribute_disabled name this :
  _disabled (removeAttribute name this) = _disabled this.
Proof.
  unfold removeAttribute. split_tests; try reflexivity.
  by rewrite attributeChangedCallback_disabled.
Qed.

Lemma set_checked_disabled v this :
  _disabled (set_checked v this) = _disabled this.
Proof.
  unfold set_checked.
  destruct (to_boolean v); auto using setAttribute_disabled, removeAttribute_disabled.
Qed.

Lemma set_disabled_disabled v this :
  _disabled (set_disabled v this) = _disabled this.
Proof.
  unfold set_disabled. destruct (to_boolean v).
  - destruct (focused _); cbn;
      rewrite removeAttribute_disabled; apply setAttribute_disabled.
  - rewrite setAttribute_disabled. apply removeAttribute_disabled.
Qed.

Lemma _toggleChecked_disabled this :
  _disabled (_toggleChecked this) = _disabled this.
Proof.
  unfold _toggleChecked. destruct (to_boolean _); [reflexivity|].
  cbn. apply set_checked_disabled.
Qed.

Lemma perform_disabled a this :
  _disabled (perform a this) = _disabled this.
Proof.
  destruct a; cbn;
    auto using set_checked_disabled, set_disabled_disabled,
      setAttribute_disabled, removeAttribute_disabled, _toggleChecked_disabled.
  - unfold connectedCallback. split_tests; try reflexivity;
      rewrite ?setAttribute_disabled; reflexivity.
  - unfold _onKeyDown. split_tests; cbn; auto using _toggleChecked_disabled.
Qed.

(** However a checkbox is used, its [disabled] getter returns what it
    returned at creation: [undefined]. *)
Lemma get_disabled_run l this :
  get_disabled (run l this) = get_disabled this.
Proof.
  unfold run, get_disabled. revert this.
  induction l as [|a l IH]; intros this; cbn; [reflexivity|].
  rewrite IH. apply perform_disabled.
Qed.

Lemma get_disabled_created l :
  get_disabled (run l created) = JUndefined.
Proof. apply get_disabled_run. Qed.

(** *** Reflection of [checked] and of the [disabled] attribute *)

Lemma attributeChangedCallback_lookup name old new this k :
  left_alone k →
  attributes (attributeChangedCallback name old new this) !! k = attributes this !! k.
Proof.
  intros (? & ? & ?). unfold attributeChangedCallback.
  split_tests; cbn; rewrite ?lookup_delete_ne, ?lookup_insert_ne by done; done.
Qed.

Lemma setAttribute_lookup name val this k :
  left_alone k →
  attributes (setAttribute name val this) !! k = <[name := val]> (attributes this) !! k.
Proof.
  intros Hk. unfold setAttribute.
  destruct (bool_decide _); [|done].
  by rewrite attributeChangedCallback_lookup.
Qed.

Lemma removeAttribute_lookup name this k :
  left_alone k →
  attributes (removeAttribute name this) !! k = delete name (attributes this) !! k.
Proof.
  intros Hk. unfold removeAttribute.
  destruct (attributes this !! name) eqn:E.
  - destruct (bool_decide _); [|done].
    by rewrite attributeChangedCallback_lookup.
  - by rewrite delete_id.
Qed.

Lemma left_alone_checked : left_alone "checked".
Proof. by repeat split. Qed.

Lemma left_alone_disabled : left_alone "disabled".
Proof. by repeat split. Qed.

(** Setting [checked] to [v] leaves the attribute present exactly when
    [Boolean(v)], and the getter returns [Boolean(v)]. *)
Lemma get_checked_set_checked v this :
  hasAttribute "checked" (set_checked v this) = to_boolean v
  ∧ get_checked (set_checked v this) = to_boolean v.
Proof.
  unfold get_checked, set_checked, hasAttribute. destruct (to_boolean v).
  - by rewrite setAttribute_lookup, lookup_insert_eq by apply left_alone_checked.
  - by rewrite removeAttribute_lookup, lookup_delete_eq by apply left_alone_checked.
Qed.

(** Setting [disabled] to [v] leaves the attribute present exactly when
    [Boolean(v)]. *)
Lemma hasAttribute_disabled_set_disabled v this :
  hasAttribute "disabled" (set_disabled v this) = to_boolean v.
Proof.
  pose proof left_alone_disabled as Hd.
  unfold set_disabled, hasAttribute. destruct (to_boolean v).
  - destruct (focused _); cbn;
      by rewrite removeAttribute_lookup, lookup_delete_ne,
        setAttribute_lookup, lookup_insert_eq.
  - by rewrite setAttribute_lookup, lookup_insert_ne,
      removeAttribute_lookup, lookup_delete_eq.
Qed.

(** ... but the getter returns [this._disabled], which the setter has
    not written. *)
Lemma get_disabled_set_disabled v this :
  get_disabled (set_disabled v this) = get_disabled this.
Proof. apply set_disabled_disabled. Qed.

(** Disabling never alters [checked]. *)
Lemma get_checked_set_disabled v this :
  get_checked (set_disabled v this) = get_checked this.
Proof.
  pose proof left_alone_checked as Hc.
  unfold get_checked, set_disabled, hasAttribute. destruct (to_boolean v).
  - destruct (focused _); cbn;
      by rewrite removeAttribute_lookup, lookup_delete_ne,
        setAttribute_lookup, lookup_insert_ne.
  - by rewrite setAttribute_lookup, lookup_insert_ne,
      removeAttribute_lookup, lookup_delete_ne.
Qed.

(** *** The toggle *)

Lemma set_checked_dispatched v this :
  dispatched (set_checked v this) = dispatched this.
Proof.
  unfold set_checked, setAttribute, removeAttribute, attributeChangedCallback.
  split_tests; reflexivity.
Qed.

(** With a falsy [disabled], the toggle flips [checked] and dispatches
    one bubbling [change] event that carries the new state. *)
Lemma _toggleChecked_enabled this :
  to_boolean (get_disabled this) = false →
  get_checked (_toggleChecked this) = negb (get_checked this)
  ∧ dispatched (_toggleChecked this) =
      (dispatched this ++
        [{| event_type := "change";
            detail := ("checked", JBool (negb (get_checked this)));
            bubbles := true |}])%list.
Proof.
  intros Hd. unfold _toggleChecked. rewrite Hd. cbn.
  destruct (get_checked_set_checked (JBool (negb (get_checked this))) this)
    as [_ Hc]. cbn in Hc.
  rewrite Hc, set_checked_dispatched. split; [exact Hc | done].
Qed.

(** With a truthy [disabled], the toggle does nothing. *)
Lemma _toggleChecked_disabled_getter this :
  to_boolean (get_disabled this) = true → _toggleChecked this = this.
Proof. intros Hd. unfold _toggleChecked. by rewrite Hd. Qed.

(** However the checkbox was used since its creation, a click flips
    [checked] and dispatches a [change] event: the guard of
    [_toggleChecked] reads [undefined]. *)
Lemma _onClick_run l :
  let this := run l created in
  get_checked (_onClick this) = negb (get_checked this)
  ∧ dispatched (_onClick this) =
      (dispatched this ++
        [{| event_type := "change";
            detail := ("checked", JBool (negb (get_checked this)));
            bubbles := true |}])%list.
Proof.
  intros this. apply _toggleChecked_enabled.
  unfold this. by rewrite get_disabled_created.
Qed.

(** The scenario of the space key: on a connected checkbox a press turns
    [checked] on and dispatches one [change] event; after [disabled =
    true] a second press turns it off again and dispatches a second
    event. *)
Example space_key_scenario :
  let press this := (_onKeyDown (keydown false SPACE) this).2 in
  let this1 := press (connectedCallback created) in
  let this2 := press (set_disabled (JBool true) this1) in
  get_checked this1 = true
  ∧ detail <$> dispatched this1 = [("checked", JBool true)]
  ∧ get_checked this2 = false
  ∧ detail <$> dispatched this2 = [("checked", JBool true); ("checked", JBool false)].
Proof. vm_compute. repeat split. Qed.

(** C1, at the failing input: a connected checkbox is disabled through
    its property; the [disabled] attribute is there and [checked] is
    off.  A click, and likewise a press of the space key, then turns
    [checked] on and dispatches a [change] event with [checked: true]:
    the toggle is not a no-op. *)
Theorem toggle_on_disabled_checkbox :
  let this := run [Connect; SetDisabled (JBool true)] created in
  let change :=
    {| event_type := "change"; detail := ("checked", JBool true); bubbles := true |} in
  hasAttribute "disabled" this = true
  ∧ get_checked this = false
  ∧ dispatched this = []
  ∧ get_checked (_onClick this) = true
  ∧ dispatched (_onClick this) = [change]
  ∧ get_checked (_onKeyDown (keydown false SPACE) this).2 = true
  ∧ dispatched (_onKeyDown (keydown false SPACE) this).2 = [change].
Proof. vm_compute. repeat split. Qed.

(** C2, at the failing input: after [disabled = true] the attribute is
    present and the property reads [undefined], not [true]; and set
    through the attribute, the property reads [undefined] as well.  The
    two surfaces disagree. *)
Theorem disabled_property_not_reflected :
  let this := set_disabled (JBool true) created in
  hasAttribute "disabled" this = true
  ∧ get_disabled this = JUndefined
  ∧ to_boolean (get_disabled this) = false
  ∧ get_disabled (setAttribute "disabled" EmptyString created) = JUndefined.
Proof. vm_compute. repeat split. Qed.

(** *** The attributes after [setAttribute] and [removeAttribute] *)

Lemma observed_iff name :
  name ∈ observedAttributes ↔ name = "checked" ∨ name = "disabled".
Proof.
  unfold observedAttributes. rewrite !elem_of_cons, elem_of_nil. tauto.
Qed.

Lemma attributes_setAttribute_checked val this :
  attributes (setAttribute "checked" val this)
  = <["aria-checked" := "true"]> (<["checked" := val]> (attributes this)).
Proof. reflexivity. Qed.

Lemma attributes_setAttribute_disabled val this :
  attributes (setAttribute "disabled" val this)
  = delete "tabindex"
      (<["aria-disabled" := "true"]> (<["disabled" := val]> (attributes this))).
Proof.
  unfold setAttribute, attributeChangedCallback. cbn.
  by destruct (focused this).
Qed.

Lemma attributes_setAttribute_other name val this :
  name ∉ observedAttributes →
  attributes (setAttribute name val this) = <[name := val]> (attributes this).
Proof.
  intros Hn. unfold setAttribute. by rewrite bool_decide_eq_false_2.
Qed.

Lemma attributes_removeAttribute_checked this :
  attributes (removeAttribute "checked" this)
  = if hasAttribute "checked" this
    then <["aria-checked" := "false"]> (delete "checked" (attributes this))
    else attributes this.
Proof.
  unfold removeAttribute, hasAttribute.
  by destruct (attributes this !! "checked").
Qed.

Lemma attributes_removeAttribute_disabled this :
  attributes (removeAttribute "disabled" this)
  = if hasAttribute "disabled" this
    then <["tabindex" := "0"]>
           (<["aria-disabled" := "false"]> (delete "disabled" (attributes this)))
    else attributes this.
Proof.
  unfold removeAttribute, hasAttribute.
  by destruct (attributes this !! "disabled").
Qed.

Lemma attributes_removeAttribute_other name this :
  name ∉ observedAttributes →
  attributes (removeAttribute name this) = delete name (attributes this).
Proof.
  intros Hn. unfold removeAttribute.
  destruct (attributes this !! name) eqn:E.
  - by rewrite bool_decide_eq_false_2.
  - by rewrite delete_id.
Qed.


(** Lookups after insertions and deletions under names known to differ. *)
Ltac lookups :=
  repeat first
    [ rewrite lookup_insert_eq | rewrite lookup_delete_eq
    | rewrite lookup_insert_ne by done | rewrite lookup_delete_ne by done ].

(** *** The ARIA attributes *)






Section Mirror.
Variables aria watched : string.
Hypothesis pair :
  (aria = "aria-checked" ∧ watched = "checked")
  ∨ (aria = "aria-disabled" ∧ watched = "disabled").






End Mirror.


(** *** The setters *)

(** X2: [checked = v] with a truthy [v] writes [aria-checked='true'];
    with a falsy [v] on a checked checkbox it writes
    [aria-checked='false']; with a falsy [v] on an unchecked checkbox it
    changes nothing at all.  It never dispatches an event. *)
Theorem set_checked_effect v this :
  (to_boolean v = true →
     attributes (set_checked v this) !! "aria-checked" = Some "true")
  ∧ (to_boolean v = false → get_checked this = true →
     attributes (set_checked v this) !! "aria-checked" = Some "false")
  ∧ (to_boolean v = false → get_checked this = false → set_checked v this = this)
  ∧ dispatched (set_checked v this) = dispatched this.
Proof.
  unfold set_checked, get_checked. split_and!.
  - intros ->. rewrite attributes_setAttribute_checked. by lookups.
  - intros -> Hc. rewrite attributes_removeAttribute_checked, Hc. by lookups.
  - intros -> Hc. unfold removeAttribute. unfold hasAttribute in Hc.
    by destruct (attributes this !! "checked").
  - apply set_checked_dispatched.
Qed.

Lemma focused_setAttribute name val this :
  name ≠ "disabled" → focused (setAttribute name val this) = focused this.
Proof.
  intros Hn. unfold setAttribute, attributeChangedCallback.
  destruct (bool_decide _); [|done].
  destruct (String.eqb_spec name "checked"); [done|].
  by destruct (String.eqb_spec name "disabled").
Qed.

Lemma focused_removeAttribute name this :
  focused (removeAttribute name this) = focused this.
Proof.
  unfold removeAttribute, attributeChangedCallback.
  destruct (attributes this !! name); [|done].
  destruct (bool_decide _); [|done].
  destruct (String.eqb_spec name "checked"); [done|].
  by destruct (String.eqb_spec name "disabled").
Qed.

Lemma focused_setAttribute_disabled val this :
  focused (setAttribute "disabled" val this) = false.
Proof.
  destruct this as [a d [] e]; reflexivity.
Qed.

Lemma dispatched_setAttribute name val this :
  dispatched (setAttribute name val this) = dispatched this.
Proof. unfold setAttribute, attributeChangedCallback. split_tests; reflexivity. Qed.

Lemma dispatched_removeAttribute name this :
  dispatched (removeAttribute name this) = dispatched this.
Proof. unfold removeAttribute, attributeChangedCallback. split_tests; reflexivity. Qed.

Lemma dispatched_set_disabled v this :
  dispatched (set_disabled v this) = dispatched this.
Proof.
  unfold set_disabled. destruct (to_boolean v).
  - destruct (focused _); cbn;
      by rewrite dispatched_removeAttribute, dispatched_setAttribute.
  - by rewrite dispatched_setAttribute, dispatched_removeAttribute.
Qed.

Lemma unobserved_tabindex : "tabindex" ∉ observedAttributes.
Proof. rewrite observed_iff. by intros [?|?]. Qed.

(** X3: [disabled = v] with a truthy [v] leaves the checkbox without
    [tabindex] and without focus, with [aria-disabled='true']; with a falsy
    [v] it leaves [tabindex='0'], no [disabled] attribute, and the focus
    where it was.  Either way [checked] and [aria-checked] stay and no
    event is dispatched. *)
Theorem set_disabled_effect v this :
  (to_boolean v = true →
     hasAttribute "tabindex" (set_disabled v this) = false
     ∧ focused (set_disabled v this) = false
     ∧ attributes (set_disabled v this) !! "aria-disabled" = Some "true")
  ∧ (to_boolean v = false →
     attributes (set_disabled v this) !! "tabindex" = Some "0"
     ∧ focused (set_disabled v this) = focused this
     ∧ hasAttribute "disabled" (set_disabled v this) = false)
  ∧ get_checked (set_disabled v this) = get_checked this
  ∧ attributes (set_disabled v this) !! "aria-checked" = attributes this !! "aria-checked"
  ∧ dispatched (set_disabled v this) = dispatched this.
Proof.
  pose proof unobserved_tabindex as Ht.
  split_and!.
  - intros Hv. unfold set_disabled, hasAttribute. rewrite Hv.
    assert (focused (removeAttribute "tabindex"
                       (setAttribute "disabled" EmptyString this)) = false) as Hf
      by (by rewrite focused_removeAttribute, focused_setAttribute_disabled).
    rewrite Hf.
    rewrite attributes_removeAttribute_other, attributes_setAttribute_disabled by done.
    by lookups.
  - intros Hv. pose proof (hasAttribute_disabled_set_disabled v this) as Hd.
    rewrite Hv in Hd. split_and!; [| |done].
    + unfold set_disabled. rewrite Hv.
      rewrite attributes_setAttribute_other by done. by lookups.
    + unfold set_disabled. rewrite Hv.
      by rewrite focused_setAttribute, focused_removeAttribute.
  - apply get_checked_set_disabled.
  - unfold set_disabled. destruct (to_boolean v).
    + destruct (focused _); cbn;
        rewrite attributes_removeAttribute_other, attributes_setAttribute_disabled by done;
        by lookups.
    + rewrite attributes_setAttribute_other, attributes_removeAttribute_disabled by done.
      destruct (hasAttribute "disabled" this); by lookups.
  - apply dispatched_set_disabled.
Qed.

(** *** Connection *)

Lemma setAttribute_unobserved name val this :
  name ∉ observedAttributes → setAttribute name val this = set_attr name val this.
Proof. intros Hn. unfold setAttribute. by rewrite bool_decide_eq_false_2. Qed.

Lemma unobserved_role : "role" ∉ observedAttributes.
Proof. rewrite observed_iff. by intros [?|?]. Qed.

(** [connectedCallback()] by what it leaves of the attributes. *)
Lemma connectedCallback_eq this :
  connectedCallback this =
    with_attributes
      (let a := attributes this in
       let a := if hasAttribute "role" this then a else <["role" := "checkbox"]> a in
       match a !! "tabindex" with
       | Some _ => a
       | None => <["tabindex" := "0"]> a
       end)
      this.
Proof.
  pose proof unobserved_role as Hr. pose proof unobserved_tabindex as Ht.
  destruct this as [a d f e]. unfold connectedCallback, hasAttribute.
  rewrite !setAttribute_unobserved by done. cbn.
  destruct (a !! "role"); cbn; by destruct (_ !! "tabindex").
Qed.

Lemma connectedCallback_attributes this :
  attributes (connectedCallback this) !! "role"
    = Some (default "checkbox" (attributes this !! "role"))
  ∧ attributes (connectedCallback this) !! "tabindex"
    = Some (default "0" (attributes this !! "tabindex"))
  ∧ (∀ k, k ≠ "role" → k ≠ "tabindex" →
       attributes (connectedCallback this) !! k = attributes this !! k).
Proof.
  rewrite connectedCallback_eq. unfold hasAttribute. cbn.
  destruct (attributes this !! "role") as [r|] eqn:Er;
    destruct (attributes this !! "tabindex") as [t|] eqn:Et; cbn;
    lookups; rewrite ?Er, ?Et; cbn; lookups; rewrite ?Er, ?Et; cbn.
  all: split_and!; try done.
  all: intros k ??; by lookups.
Qed.

Lemma connectedCallback_idempotent this :
  connectedCallback (connectedCallback this) = connectedCallback this.
Proof.
  destruct (connectedCallback_attributes this) as (Hr & Ht & _).
  rewrite (connectedCallback_eq (connectedCallback this)).
  unfold hasAttribute. rewrite Hr. cbn. rewrite Ht.
  by destruct (connectedCallback this).
Qed.

(** X4: [connectedCallback()] leaves a [role] and a [tabindex]: the ones
    the checkbox had, else [checkbox] and [0].  It gives the [tabindex] to
    a disabled checkbox too.  No other attribute changes, nothing else of
    the checkbox, and a second call changes nothing. *)
Theorem connectedCallback_defaults this :
  attributes (connectedCallback this) !! "role"
    = Some (default "checkbox" (attributes this !! "role"))
  ∧ attributes (connectedCallback this) !! "tabindex"
    = Some (default "0" (attributes this !! "tabindex"))
  ∧ (∀ k, k ≠ "role" → k ≠ "tabindex" →
       attributes (connectedCallback this) !! k = attributes this !! k)
  ∧ focused (connectedCallback this) = focused this
  ∧ dispatched (connectedCallback this) = dispatched this
  ∧ connectedCallback (connectedCallback this) = connectedCallback this.
Proof.
  destruct (connectedCallback_attributes this) as (Hr & Ht & Hk).
  split_and!; [done..| | |apply connectedCallback_idempotent];
    by rewrite connectedCallback_eq.
Qed.

Lemma dispatched_connectedCallback this :
  dispatched (connectedCallback this) = dispatched this.
Proof. by rewrite connectedCallback_eq. Qed.

(** *** Events *)

(** What one action adds to the events, on a checkbox whose [disabled]
    getter reads [undefined]. *)
Lemma dispatched_perform a this :
  get_disabled this = JUndefined →
  dispatched (perform a this) =
    (dispatched this ++
       if toggles a
       then [{| event_type := "change";
                detail := ("checked", JBool (negb (get_checked this)));
                bubbles := true |}]
       else [])%list.
Proof.
  intros Hd.
  assert (to_boolean (get_disabled this) = false) as Hd' by (by rewrite Hd).
  destruct (_toggleChecked_enabled this Hd') as [_ Ht].
  destruct a; cbn [perform toggles]; rewrite ?app_nil_r.
  - apply dispatched_connectedCallback.
  - apply set_checked_dispatched.
  - apply dispatched_set_disabled.
  - apply dispatched_setAttribute.
  - apply dispatched_removeAttribute.
  - done.
  - exact Ht.
  - unfold _onKeyDown. destruct (altKey event); cbn; [by rewrite app_nil_r|].
    destruct (keyCode event =? SPACE); cbn; [exact Ht|by rewrite app_nil_r].
Qed.

Lemma dispatched_run_from l this :
  get_disabled this = JUndefined →
  length (dispatched (run l this))
    = (length (dispatched this) + length (filter (λ a, Is_true (toggles a)) l))%nat
  ∧ (Forall (λ e, event_type e = "change" ∧ bubbles e = true) (dispatched this) →
     Forall (λ e, event_type e = "change" ∧ bubbles e = true) (dispatched (run l this))).
Proof.
  unfold run. revert this. induction l as [|a l IH]; intros this Hd; cbn [foldl].
  - rewrite filter_nil. cbn. split; [lia|done].
  - destruct (IH (perform a this)) as [IHn IHe].
    { unfold get_disabled in *. by rewrite perform_disabled. }
    rewrite (dispatched_perform a this Hd) in IHn, IHe.
    rewrite length_app in IHn. rewrite IHn. split.
    + destruct (toggles a) eqn:Ea.
      * rewrite filter_cons_True by (by apply Is_true_true_2). cbn. lia.
      * rewrite filter_cons_False by (by apply Is_true_false_2). cbn. lia.
    + intros He. apply IHe, Forall_app. split; [done|].
      destruct (toggles a); by repeat constructor.
Qed.

(** X5: in everything that is done to a checkbox since its creation, the
    events it has dispatched are as many as the clicks and presses of the
    space key without Alt; each is a bubbling [change] event.  Setting a
    property or an attribute never dispatches. *)
Theorem dispatched_run l :
  length (dispatched (run l created)) = length (filter (λ a, Is_true (toggles a)) l)
  ∧ Forall (λ e, event_type e = "change" ∧ bubbles e = true) (dispatched (run l created)).
Proof.
  destruct (dispatched_run_from l created) as [Hn He]; [done|].
  split; [exact Hn | by apply He].
Qed.

(** X6: two clicks in a row leave [checked] as it was, and dispatch two
    [change] events, the first with the opposite state and the second with
    the state [checked] had and has again. *)
Theorem click_twice l :
  let this := run l created in
  let this' := _onClick (_onClick this) in
  get_checked this' = get_checked this
  ∧ detail <$> dispatched this' =
      ((detail <$> dispatched this) ++
         [("checked", JBool (negb (get_checked this)));
          ("checked", JBool (get_checked this))])%list.
Proof.
  intros this this'. unfold this', _onClick.
  assert (to_boolean (get_disabled this) = false) as Hd
    by (unfold this; by rewrite get_disabled_created).
  assert (to_boolean (get_disabled (_toggleChecked this)) = false) as Hd'.
  { unfold get_disabled in *. by rewrite _toggleChecked_disabled. }
  destruct (_toggleChecked_enabled _ Hd) as [Hc He].
  destruct (_toggleChecked_enabled _ Hd') as [Hc' He'].
  rewrite Hc', He', Hc, He, negb_involutive. split; [done|].
  by rewrite !fmap_app, <- app_assoc.
Qed.
End CheckboxFacts.

End CheckboxFacts.

(** * Properties of the listbox *)

Module ListboxFacts.
Import ListboxOption Listbox.
Section ListboxFacts.
Context `{JsNumber}.

Implicit Types (this : DashListbox) (o : DashOption) (l : list DashOption).
Implicit Types (v : value) (i j n : nat).

(** *** The [selected] property of an option *)

Lemma observed_selected : bool_decide ("selected" ∈ observedAttributes) = true.
Proof. apply bool_decide_eq_true_2. unfold observedAttributes. set_solver. Qed.

(** Setting [selected] writes [selected] and [aria-selected] only. *)
Lemma set_selected_lookup v o k :
  k ≠ "selected" → k ≠ "aria-selected" →
  ListboxOption.attributes (set_selected v o) !! k = ListboxOption.attributes o !! k.
Proof.
  intros ??. unfold set_selected, ListboxOption.setAttribute, ListboxOption.removeAttribute.
  rewrite observed_selected.
  destruct (to_boolean v);
    [|destruct (ListboxOption.attributes o !! "selected")]; cbn;
    rewrite ?lookup_insert_ne, ?lookup_delete_ne by done; done.
Qed.

(** Setting [selected] to [v] leaves the attribute present exactly when
    [Boolean(v)], and the getter returns [Boolean(v)]. *)
Lemma get_selected_set_selected v o :
  ListboxOption.hasAttribute "selected" (set_selected v o) = to_boolean v
  ∧ get_selected (set_selected v o) = to_boolean v.
Proof.
  unfold get_selected, set_selected, ListboxOption.hasAttribute,
    ListboxOption.setAttribute, ListboxOption.removeAttribute.
  rewrite observed_selected.
  destruct (to_boolean v);
    [|destruct (ListboxOption.attributes o !! "selected") eqn:E]; cbn.
  - by rewrite lookup_insert_ne, lookup_insert_eq.
  - by rewrite lookup_insert_ne, lookup_delete_eq.
  - by rewrite E.
Qed.

Lemma get_value_set_selected v o :
  ListboxOption.get_value (set_selected v o) = ListboxOption.get_value o.
Proof.
  unfold ListboxOption.get_value, getAttribute. by rewrite set_selected_lookup.
Qed.

Lemma get_id_set_selected v o : get_id (set_selected v o) = get_id o.
Proof. unfold get_id, getAttribute. by rewrite set_selected_lookup. Qed.

(** The value of an option is a string or [null]. *)
Lemma get_value_cases o :
  (ListboxOption.get_value o = JNull ∧ getAttribute "value" o = None)
  ∨ ∃ s, ListboxOption.get_value o = JStr s ∧ getAttribute "value" o = Some s.
Proof.
  unfold ListboxOption.get_value. destruct (getAttribute "value" o); eauto.
Qed.

Lemma selected_on o : get_selected (set_selected (JBool true) o) = true.
Proof. apply get_selected_set_selected. Qed.

Lemma selected_off o : get_selected (set_selected (JBool false) o) = false.
Proof. apply get_selected_set_selected. Qed.

(** From here on the option is used through its properties only. *)
Local Arguments set_selected : simpl never.
Local Arguments get_selected : simpl never.
Local Arguments ListboxOption.get_value : simpl never.
Local Arguments get_id : simpl never.

(** *** Lists of options *)

Local Abbreviation selected_in := (λ o : DashOption, Is_true (get_selected o)).
Local Abbreviation unselected := (Forall (λ o : DashOption, get_selected o = false)).

Lemma unselected_reset l : unselected (set_selected (JBool false) <$> l).
Proof. apply Forall_fmap, Forall_true. intros o. apply selected_off. Qed.

Lemma find_unselected l :
  unselected l → list_find selected_in l = None.
Proof.
  intros Hl. apply list_find_None.
  eapply Forall_impl; [exact Hl|]. intros o Ho. by apply Is_true_false_2.
Qed.

Lemma filter_unselected l :
  unselected l → filter selected_in l = [].
Proof.
  induction 1 as [|o l Ho _ IH]; [done|].
  rewrite filter_cons_False; [done|]. by apply Is_true_false_2.
Qed.

Lemma find_alter l j o :
  unselected l → l !! j = Some o →
  list_find selected_in (alter (set_selected (JBool true)) j l)
  = Some (j, set_selected (JBool true) o).
Proof.
  intros Hl Hj. apply list_find_Some. split_and!.
  - by rewrite list_lookup_alter_eq, Hj.
  - apply Is_true_true_2, selected_on.
  - intros k y Hk Hlt. rewrite list_lookup_alter_ne in Hk by lia.
    apply Is_true_false_2, (Forall_lookup_1 _ _ _ _ Hl Hk).
Qed.

Lemma filter_alter l j o :
  unselected l → l !! j = Some o →
  length (filter selected_in (alter (set_selected (JBool true)) j l)) = 1%nat.
Proof.
  intros Hl. revert j. induction Hl as [|x l Hx Hl IH]; intros j Hj; [done|].
  destruct j as [|j]; cbn [alter list_alter lookup list_lookup] in *.
  - rewrite filter_cons_True by apply Is_true_true_2, selected_on.
    cbn. by rewrite filter_unselected.
  - rewrite filter_cons_False by (by apply Is_true_false_2). by apply IH.
Qed.

(** *** What the methods compute *)

Lemma reset_eq this :
  reset this = (Normal tt, with_options (set_selected (JBool false) <$> options this) this).
Proof. reflexivity. Qed.

Lemma _selectOption_at this j o :
  options this !! j = Some o →
  _selectOption (OptionAt j) this =
    (Normal tt,
     {| attributes := <["aria-activedescendant" := get_id o]> (attributes this);
        options := alter (set_selected (JBool true)) j
                     (set_selected (JBool false) <$> options this);
        dispatched := dispatched this |}).
Proof.
  intros Hj. unfold _selectOption, write, read, mbind, M_bind, gets, element. cbn.
  rewrite list_lookup_fmap, Hj. cbn.
  rewrite list_lookup_alter_eq, list_lookup_fmap, Hj. cbn.
  by rewrite !get_id_set_selected.
Qed.

Lemma _selectOption_undefined this :
  _selectOption Undefined this =
    (Throw TypeError, with_options (set_selected (JBool false) <$> options this) this).
Proof. reflexivity. Qed.

Lemma _selectOption_stale this j :
  options this !! j = None →
  _selectOption (OptionAt j) this =
    (Throw TypeError, with_options (set_selected (JBool false) <$> options this) this).
Proof.
  intros Hj. unfold _selectOption, write, read, mbind, M_bind, gets, element. cbn.
  by rewrite list_lookup_fmap, Hj.
Qed.

Lemma _selectOption_other this e :
  _selectOption (Other e) this =
    (Normal tt,
     {| attributes := <["aria-activedescendant" := get_id e]> (attributes this);
        options := set_selected (JBool false) <$> options this;
        dispatched := dispatched this |}).
Proof. reflexivity. Qed.

(** *** Navigation *)

Lemma _selectedOption_Some this i :
  _selectedOption this = OptionAt i ↔
  ∃ o, list_find selected_in (options this) = Some (i, o).
Proof.
  unfold _selectedOption, find, _allOptions.
  destruct (list_find _ _) as [[k o]|]; split.
  - intros [= ->]. eauto.
  - intros [? Heq]. by inversion Heq.
  - done.
  - by intros [? ?].
Qed.

Lemma _selectedOption_None this :
  _selectedOption this = Undefined ↔ list_find selected_in (options this) = None.
Proof.
  unfold _selectedOption, find, _allOptions.
  by destruct (list_find _ _) as [[k o]|].
Qed.

Lemma _selectedOption_lt this i :
  _selectedOption this = OptionAt i → (i < length (options this))%nat.
Proof.
  intros Hs. apply _selectedOption_Some in Hs as [o Ho].
  apply list_find_Some in Ho as (Ho & _). by eapply lookup_lt_Some.
Qed.

Lemma findIndex_selected this i :
  _selectedOption this = OptionAt i →
  findIndex get_selected (options this) = Z.of_nat i.
Proof.
  intros Hs. apply _selectedOption_Some in Hs as [o Ho]. unfold findIndex. by rewrite Ho.
Qed.

Lemma findIndex_unselected this :
  _selectedOption this = Undefined →
  findIndex get_selected (options this) = -1.
Proof.
  intros Ho. apply _selectedOption_None in Ho. unfold findIndex. by rewrite Ho.
Qed.

(** [options[k]] for an index of the array. *)
Lemma index_in l k :
  (k < length l)%nat → index l (Some (Z.of_nat k)) = OptionAt k.
Proof.
  intros Hk. unfold index.
  rewrite andb_true_intro by (split; [apply Z.leb_le | apply Z.ltb_lt]; lia).
  by rewrite Nat2Z.id.
Qed.

(** From the [i]-th option, [_nextOption()] is the option after it, the
    first one after the last. *)
Lemma _nextOption_at this i :
  _selectedOption this = OptionAt i →
  _nextOption this = OptionAt ((i + 1) mod length (options this)).
Proof.
  intros Hi. pose proof (_selectedOption_lt _ _ Hi) as Hlt.
  unfold _nextOption, _allOptions, js_rem. rewrite (findIndex_selected _ _ Hi).
  destruct (Z.eqb_spec (Z.of_nat (length (options this))) 0) as [|_]; [lia|].
  rewrite Z.rem_mod_nonneg by lia.
  replace (Z.of_nat i + 1) with (Z.of_nat (i + 1)) by lia.
  rewrite <- Nat2Z.inj_mod. apply index_in.
  apply Nat.mod_upper_bound. lia.
Qed.

(** From the [i]-th option, [_prevOption()] is the option before it, the
    last one before the first. *)
Lemma _prevOption_at this i :
  _selectedOption this = OptionAt i →
  _prevOption this =
    OptionAt ((i + (length (options this) - 1)) mod length (options this)).
Proof.
  intros Hi. pose proof (_selectedOption_lt _ _ Hi) as Hlt.
  unfold _prevOption, _allOptions, js_rem. rewrite (findIndex_selected _ _ Hi).
  destruct (Z.eqb_spec (Z.of_nat (length (options this))) 0) as [|_]; [lia|].
  rewrite Z.rem_mod_nonneg by lia.
  replace (Z.of_nat i - 1 + Z.of_nat (length (options this)))
    with (Z.of_nat (i + (length (options this) - 1))) by lia.
  rewrite <- Nat2Z.inj_mod. apply index_in.
  apply Nat.mod_upper_bound. lia.
Qed.

(** With no option selected, [_nextOption()] is the first option. *)
Lemma _nextOption_unselected this :
  _selectedOption this = Undefined → options this ≠ [] →
  _nextOption this = OptionAt 0.
Proof.
  intros Hi Hn. unfold _nextOption, _allOptions, js_rem.
  rewrite (findIndex_unselected _ Hi).
  destruct (options this) as [|o l]; [done|]. cbn [length].
  destruct (Z.eqb_spec (Z.of_nat (S (length l))) 0) as [|_]; [lia|].
  change (-1 + 1) with 0. rewrite Z.rem_0_l by lia.
  apply (index_in (o :: l) 0). cbn. lia.
Qed.

(** With no option selected, [_prevOption()] is the option before the
    last one; it is the last one only when there is no other. *)
Lemma _prevOption_unselected this :
  _selectedOption this = Undefined → options this ≠ [] →
  _prevOption this = OptionAt (length (options this) - 2).
Proof.
  intros Hi Hn. unfold _prevOption, _allOptions, js_rem.
  rewrite (findIndex_unselected _ Hi).
  destruct (options this) as [|o l]; [done|].
  destruct (Z.eqb_spec (Z.of_nat (length (o :: l))) 0) as [|_]; [cbn in *; lia|].
  destruct l as [|o' l].
  - reflexivity.
  - rewrite Z.rem_small by (cbn [length]; lia).
    replace (-1 - 1 + Z.of_nat (length (o :: o' :: l)))
      with (Z.of_nat (length (o :: o' :: l) - 2)) by (cbn [length]; lia).
    apply index_in. cbn [length]. lia.
Qed.

(** *** Selecting *)

(** Selecting an option of the listbox returns normally and leaves that
    option selected, and no other; the values of the options and the
    events dispatched so far stay. *)
Lemma _selectOption_in this j :
  (j < length (options this))%nat →
  ∃ this',
    _selectOption (OptionAt j) this = (Normal tt, this')
    ∧ _selectedOption this' = OptionAt j
    ∧ selected_count this' = 1%nat
    ∧ length (options this') = length (options this)
    ∧ ListboxOption.get_value <$> options this' = ListboxOption.get_value <$> options this
    ∧ dispatched this' = dispatched this.
Proof.
  intros Hj. destruct (lookup_lt_is_Some_2 _ _ Hj) as [o Ho].
  eexists. split; [by apply _selectOption_at|].
  assert ((set_selected (JBool false) <$> options this) !! j
          = Some (set_selected (JBool false) o)) as Ho'
    by (by rewrite list_lookup_fmap, Ho).
  pose proof (unselected_reset (options this)) as Hu.
  split_and!; cbn.
  - apply _selectedOption_Some. eexists. by apply find_alter.
  - unfold selected_count. cbn. by eapply filter_alter.
  - by rewrite length_alter, length_fmap.
  - apply list_eq. intros k. rewrite !list_lookup_fmap.
    destruct (decide (j = k)) as [->|].
    + rewrite list_lookup_alter_eq, list_lookup_fmap, Ho. cbn.
      by rewrite !get_value_set_selected.
    + rewrite list_lookup_alter_ne, list_lookup_fmap by done.
      destruct (options this !! k); cbn; [|done].
      by rewrite get_value_set_selected.
  - done.
Qed.

(** After [reset()] no option is selected. *)
Lemma reset_unselected this :
  ∃ this',
    reset this = (Normal tt, this')
    ∧ _selectedOption this' = Undefined
    ∧ selected_count this' = 0%nat
    ∧ length (options this') = length (options this)
    ∧ dispatched this' = dispatched this.
Proof.
  eexists. split; [apply reset_eq|].
  pose proof (unselected_reset (options this)) as Hu.
  split_and!; cbn.
  - apply _selectedOption_None. by apply find_unselected.
  - unfold selected_count. cbn. by rewrite filter_unselected.
  - by rewrite length_fmap.
  - done.
Qed.

(** Whatever [_selectOption] is given, at most one option is selected
    when it returns or throws. *)
Lemma _selectOption_count target this :
  (selected_count (_selectOption target this).2 ≤ 1)%nat.
Proof.
  pose proof (unselected_reset (options this)) as Hu.
  destruct target as [|j|e].
  - rewrite _selectOption_undefined. unfold selected_count. cbn.
    rewrite filter_unselected by done. cbn. lia.
  - destruct (options this !! j) as [o|] eqn:Ho.
    + destruct (_selectOption_in this j) as (this' & E & _ & C & _);
        [by eapply lookup_lt_Some|].
      rewrite E. cbn. by rewrite C.
    + rewrite _selectOption_stale by done. unfold selected_count. cbn.
      rewrite filter_unselected by done. cbn. lia.
  - rewrite _selectOption_other. unfold selected_count. cbn.
    rewrite filter_unselected by done. cbn. lia.
Qed.

Lemma select_next_at this i :
  _selectedOption this = OptionAt i →
  ∃ this',
    select_next this = (Normal tt, this')
    ∧ _selectedOption this' = OptionAt ((i + 1) mod length (options this))
    ∧ selected_count this' = 1%nat
    ∧ length (options this') = length (options this).
Proof.
  intros Hi. pose proof (_selectedOption_lt _ _ Hi) as Hlt.
  unfold select_next, mbind, M_bind, gets. rewrite (_nextOption_at _ _ Hi).
  destruct (_selectOption_in this ((i + 1) mod length (options this)))
    as (this' & -> & ? & ? & ? & _).
  { apply Nat.mod_upper_bound. lia. }
  eauto.
Qed.

Lemma select_prev_at this i :
  _selectedOption this = OptionAt i →
  ∃ this',
    select_prev this = (Normal tt, this')
    ∧ _selectedOption this' =
        OptionAt ((i + (length (options this) - 1)) mod length (options this))
    ∧ selected_count this' = 1%nat
    ∧ length (options this') = length (options this).
Proof.
  intros Hi. pose proof (_selectedOption_lt _ _ Hi) as Hlt.
  unfold select_prev, mbind, M_bind, gets. rewrite (_prevOption_at _ _ Hi).
  destruct (_selectOption_in this
              ((i + (length (options this) - 1)) mod length (options this)))
    as (this' & -> & ? & ? & ? & _).
  { apply Nat.mod_upper_bound. lia. }
  eauto.
Qed.

(** [k] steps forward from the [i]-th option end on the option [k]
    places further, counted cyclically. *)
Lemma times_select_next k this i :
  _selectedOption this = OptionAt i →
  ∃ this',
    times k select_next this = (Normal tt, this')
    ∧ _selectedOption this' = OptionAt ((i + k) mod length (options this))
    ∧ (0 < k → selected_count this' = 1)%nat
    ∧ length (options this') = length (options this).
Proof.
  revert this i. induction k as [|k IH]; intros this i Hi.
  - exists this. pose proof (_selectedOption_lt _ _ Hi).
    rewrite Nat.add_0_r, Nat.mod_small by done. split_and!; [done..|lia|done].
  - destruct (select_next_at this i Hi) as (this1 & E1 & H1 & C1 & L1).
    destruct (IH this1 _ H1) as (this2 & E2 & H2 & C2 & L2).
    exists this2. cbn [times]. unfold mbind, M_bind. rewrite E1, E2.
    rewrite L1 in *. split_and!; [done| |..|done].
    + rewrite H2. f_equal.
      rewrite Nat.Div0.add_mod_idemp_l. f_equal. lia.
    + intros _. destruct k; [|apply C2; lia].
      cbn in E2. by injection E2 as <-.
Qed.

(** *** Reading the value *)

Lemma get_value_at this i o :
  _selectedOption this = OptionAt i → options this !! i = Some o →
  get_value this = (Normal (ListboxOption.get_value o), this).
Proof.
  intros Hi Ho. unfold get_value, read, mbind, M_bind, gets, element.
  by rewrite Hi, Ho.
Qed.

Lemma get_value_unselected this :
  _selectedOption this = Undefined →
  get_value this = (Normal (JStr EmptyString), this).
Proof.
  intros Hi. unfold get_value, mbind, M_bind, gets. by rewrite Hi.
Qed.

(** The selected option is an option of the listbox. *)
Lemma _selectedOption_lookup this i :
  _selectedOption this = OptionAt i →
  ∃ o, options this !! i = Some o ∧ get_selected o = true.
Proof.
  intros Hs. apply _selectedOption_Some in Hs as [o Ho].
  apply list_find_Some in Ho as (Ho & Hsel & _).
  exists o. split; [done|]. by apply Is_true_true_1.
Qed.

(** [get value()] always returns, and changes nothing. *)
Lemma get_value_returns this :
  ∃ r, get_value this = (Normal r, this).
Proof.
  destruct (_selectedOption this) as [|i|e] eqn:Hi.
  - eexists. by apply get_value_unselected.
  - destruct (_selectedOption_lookup _ _ Hi) as (o & Ho & _).
    eexists. by eapply get_value_at.
  - unfold _selectedOption, find in Hi. by destruct (list_find _ _) as [[??]|].
Qed.

(** *** A single selected option fixes every flag *)

Lemma selection_single l i o :
  list_find selected_in l = Some (i, o) →
  length (filter selected_in l) = 1%nat →
  get_selected <$> l = <[i := true]> (replicate (length l) false).
Proof.
  revert i. induction l as [|x l IH]; intros i Hf Hc; [done|].
  cbn in Hf. destruct (decide (selected_in x)) as [Hx|Hx].
  - injection Hf as <- <-. rewrite filter_cons_True in Hc by done.
    cbn in Hc. cbn. rewrite (Is_true_true_1 _ Hx). f_equal.
    assert (filter selected_in l = []) as Hnil
      by (apply length_zero_iff_nil; lia).
    clear -Hnil. induction l as [|y l IH]; [done|].
    destruct (decide (selected_in y)) as [Hy|Hy].
    + by rewrite filter_cons_True in Hnil.
    + rewrite filter_cons_False in Hnil by done. cbn.
      rewrite (Is_true_false_1 _ Hy). f_equal. auto.
  - rewrite filter_cons_False in Hc by done.
    destruct (list_find selected_in l) as [[k y]|]; [|done].
    cbn in Hf. injection Hf as <- <-. cbn.
    rewrite (Is_true_false_1 _ Hx). f_equal. by eapply IH.
Qed.

(** Two listboxes of one length with the same single option selected
    have the same flags. *)
Lemma selection_restored this this' i :
  _selectedOption this = OptionAt i → selected_count this = 1%nat →
  _selectedOption this' = OptionAt i → selected_count this' = 1%nat →
  length (options this') = length (options this) →
  selection this' = selection this.
Proof.
  intros Hi Hc Hi' Hc' Hlen.
  apply _selectedOption_Some in Hi as [o Hi], Hi' as [o' Hi'].
  unfold selection.
  rewrite (selection_single _ _ _ Hi Hc), (selection_single _ _ _ Hi' Hc').
  by rewrite Hlen.
Qed.

(** *** Navigation without a selection *)

(** C3, at the failing input: two options, none selected.
    [_nextOption()] is the first option, as claimed; [_prevOption()] is
    the first option too, not the last: [findIndex] gives -1, so the
    index is [(-2 + 2) % 2 = 0].  With three options it is the second,
    and Up then selects [b]. *)
Theorem _prevOption_from_no_selection :
  let two := listbox_of [option_element false (Some "a"); option_element false (Some "b")] in
  let three := listbox_of [option_element false (Some "a"); option_element false (Some "b");
                           option_element false (Some "c")] in
  _selectedOption two = Undefined
  ∧ _nextOption two = OptionAt 0
  ∧ _lastOption two = OptionAt 1
  ∧ _prevOption two = OptionAt 0
  ∧ _prevOption three = OptionAt 1
  ∧ (get_value (_onKeyDown (keydown false UP) three).2).1 = Normal (JStr "b").
Proof. vm_compute. repeat split. Qed.

(** *** At most one option is selected *)

Lemma perform_count op this :
  (selected_count (perform op this).2 ≤ 1)%nat.
Proof.
  destruct op as [target| |val]; cbn [perform].
  - apply _selectOption_count.
  - destruct (reset_unselected this) as (this' & E & _ & C & _).
    rewrite E. cbn. lia.
  - unfold set_value, mbind, M_bind, gets.
    destruct (find _ _); [|apply _selectOption_count..].
    destruct (reset_unselected this) as (this' & E & _ & C & _).
    rewrite E. cbn. lia.
Qed.

Lemma run_count ops this :
  (selected_count this ≤ 1)%nat → (selected_count (run ops this) ≤ 1)%nat.
Proof.
  unfold run. revert this. induction ops as [|op ops IH]; intros this Hc; [done|].
  cbn [foldl]. apply IH, perform_count.
Qed.

(** C4: after any sequence of [_selectOption], [reset] and [value = v]
    calls, with any targets and values, at most one option is selected.
    The first call already establishes it, whatever the markup had
    selected; with no call at all it holds when it held before. *)
Theorem at_most_one_selected ops this :
  ops ≠ [] ∨ (selected_count this ≤ 1)%nat →
  (selected_count (run ops this) ≤ 1)%nat.
Proof.
  intros [Hops|Hc]; [|by apply run_count].
  destruct ops as [|op ops]; [done|].
  unfold run. cbn [foldl]. apply run_count, perform_count.
Qed.

(** *** Setting the value, then reading it *)

Lemma matched_find val this :
  matched val this ↔
  ∃ i o, list_find (λ o, Is_true (matches val o)) (options this) = Some (i, o).
Proof.
  split.
  - intros (o & Ho & Hm).
    destruct (list_find_elem_of (λ o, Is_true (matches val o)) (options this) o)
      as [[i o'] Hf]; [done|by apply Is_true_true_2|]. eauto.
  - intros (i & o & Hf). apply list_find_Some in Hf as (Ho & Hm & _).
    exists o. split; [by eapply list_elem_of_lookup_2|by apply Is_true_true_1].
Qed.

Lemma set_value_eq val this :
  set_value val this =
    match list_find (λ o, Is_true (matches val o)) (options this) with
    | Some (i, _) => _selectOption (OptionAt i) this
    | None => reset this
    end.
Proof.
  unfold set_value, mbind, M_bind, gets, find, _allOptions, matches.
  by destruct (list_find _ _) as [[??]|].
Qed.

(** C5, amended.  [value = val] followed by a read of [value] returns and
    does not throw.  When some option's value loosely equals [val], the
    first such option ends up selected, alone, and the read returns its
    value: a value loosely equal to [val], and [val] itself when [val]
    is a string.  When none does, no option is selected and the read
    returns the empty string.  So a result loosely equal to [val] tells
    that an option matched only for a [val] that is not itself loosely
    equal to the empty string. *)
Theorem set_value_then_get_value val this :
  ∃ r this',
    (set_value val;; get_value) this = (Normal r, this')
    ∧ (matched val this →
         loose_eq r val = true
         ∧ (∀ s, val = JStr s → r = val)
         ∧ selected_count this' = 1%nat
         ∧ ∃ i o, options this !! i = Some o
                  ∧ matches val o = true
                  ∧ (∀ j o', (j < i)%nat → options this !! j = Some o' → matches val o' = false)
                  ∧ r = ListboxOption.get_value o
                  ∧ _selectedOption this' = OptionAt i)
    ∧ (¬ matched val this →
         r = JStr EmptyString
         ∧ _selectedOption this' = Undefined
         ∧ selected_count this' = 0%nat)
    ∧ (loose_eq (JStr EmptyString) val = false →
         (loose_eq r val = true ↔ matched val this)).
Proof.
  unfold mbind, M_bind. rewrite set_value_eq.
  destruct (list_find (λ o, Is_true (matches val o)) (options this))
    as [[i o]|] eqn:Hf.
  - assert (matched val this) as Hm by (apply matched_find; eauto).
    apply list_find_Some in Hf as (Ho & Hmo & Hfirst).
    apply Is_true_true_1 in Hmo.
    destruct (_selectOption_in this i) as (this1 & -> & Hs & Hc & _ & Hv & _);
      [by eapply lookup_lt_Some|].
    destruct (_selectedOption_lookup _ _ Hs) as (o1 & Ho1 & _).
    assert (ListboxOption.get_value o1 = ListboxOption.get_value o) as Hvo.
    { apply (f_equal (λ l : list value, l !! i)) in Hv.
      rewrite !list_lookup_fmap, Ho, Ho1 in Hv. by injection Hv. }
    rewrite (get_value_at _ _ _ Hs Ho1), Hvo.
    eexists _, _. split; [done|]. split_and!.
    + intros _. split_and!; [done| |done|].
      * intros s ->. unfold matches in Hmo.
        destruct (get_value_cases o) as [[E _]|(t & E & _)];
          rewrite E in Hmo |- *; cbn in Hmo; [done|].
        by apply String.eqb_eq in Hmo as ->.
      * exists i, o. split_and!; [done..| |done|done].
        intros j o' Hj Ho'. apply Is_true_false_1. by eapply Hfirst.
    + done.
    + done.
  - assert (¬ matched val this) as Hm.
    { rewrite matched_find. intros (i & o & ?). congruence. }
    destruct (reset_unselected this) as (this1 & -> & Hs & Hc & _).
    rewrite (get_value_unselected _ Hs).
    eexists _, _. split; [done|]. split_and!; [done|done|].
    intros He. rewrite He. split; [done|by intros ?].
Qed.

(** *** Going round *)

(** C6, amended.  In a listbox where some option is selected (so there
    is at least one), selecting [_nextOption()] as many times as there
    are options returns each time and ends with the option selected that
    [_selectedOption()] gave at the start, and with it alone; when it
    was alone at the start, the [selected] flag of every option is as it
    was. *)
Theorem next_round_trip this i :
  _selectedOption this = OptionAt i →
  ∃ this',
    times (length (options this)) select_next this = (Normal tt, this')
    ∧ _selectedOption this' = OptionAt i
    ∧ selected_count this' = 1%nat
    ∧ (selected_count this = 1%nat → selection this' = selection this).
Proof.
  intros Hi. pose proof (_selectedOption_lt _ _ Hi) as Hlt.
  destruct (times_select_next (length (options this)) this i Hi)
    as (this' & E & Hs & Hc & Hlen).
  assert ((i + length (options this)) mod length (options this) = i)%nat as Hmod.
  { rewrite <- Nat.Div0.add_mod_idemp_r, Nat.Div0.mod_same, Nat.add_0_r.
    by apply Nat.mod_small. }
  rewrite Hmod in Hs. specialize (Hc ltac:(lia)).
  exists this'. split_and!; [done..|].
  intros Hone. by eapply selection_restored.
Qed.

(** C7, amended.  In a listbox where some option is selected, selecting
    [_nextOption()] and then [_prevOption()], or the other way round,
    returns and ends with the option selected that [_selectedOption()]
    gave at the start, and with it alone; when it was alone at the
    start, the [selected] flag of every option is as it was. *)
Theorem next_prev_inverse this i :
  _selectedOption this = OptionAt i →
  ∃ there back,
    (select_next;; select_prev) this = (Normal tt, there)
    ∧ (select_prev;; select_next) this = (Normal tt, back)
    ∧ _selectedOption there = OptionAt i
    ∧ _selectedOption back = OptionAt i
    ∧ selected_count there = 1%nat
    ∧ selected_count back = 1%nat
    ∧ (selected_count this = 1%nat →
         selection there = selection this ∧ selection back = selection this).
Proof.
  intros Hi. pose proof (_selectedOption_lt _ _ Hi) as Hlt.
  set (n := length (options this)) in *.
  destruct (select_next_at this i Hi) as (a1 & Ea1 & Ha1 & _ & La1).
  destruct (select_prev_at a1 _ Ha1) as (a2 & Ea2 & Ha2 & Ca2 & La2).
  destruct (select_prev_at this i Hi) as (b1 & Eb1 & Hb1 & _ & Lb1).
  destruct (select_next_at b1 _ Hb1) as (b2 & Eb2 & Hb2 & Cb2 & Lb2).
  fold n in Ha1, Hb1. rewrite La1 in *. rewrite Lb1 in *. fold n in Ha2, Hb2.
  assert (((i + 1) mod n + (n - 1)) mod n = i)%nat as Ea.
  { rewrite Nat.Div0.add_mod_idemp_l.
    replace (i + 1 + (n - 1))%nat with (i + n)%nat by lia.
    rewrite <- Nat.Div0.add_mod_idemp_r, Nat.Div0.mod_same, Nat.add_0_r.
    by apply Nat.mod_small. }
  assert (((i + (n - 1)) mod n + 1) mod n = i)%nat as Eb.
  { rewrite Nat.Div0.add_mod_idemp_l.
    replace (i + (n - 1) + 1)%nat with (i + n)%nat by lia.
    rewrite <- Nat.Div0.add_mod_idemp_r, Nat.Div0.mod_same, Nat.add_0_r.
    by apply Nat.mod_small. }
  rewrite Ea in Ha2. rewrite Eb in Hb2.
  exists a2, b2. unfold mbind, M_bind. rewrite Ea1, Ea2, Eb1, Eb2.
  split_and!; [done..|].
  intros Hone. split; eapply selection_restored; eauto; congruence.
Qed.

(** *** The empty listbox *)

(** C8: in a listbox with no option, [_prevOption()], [_nextOption()],
    [_firstOption()] and [_lastOption()] are [undefined], and a press of
    an arrow key, Home or End (with no Alt) throws a [TypeError] in the
    selection step: after [preventDefault], before any event is
    dispatched, with the listbox as it was. *)
Theorem navigation_on_empty_listbox this event :
  options this = [] →
  _prevOption this = Undefined
  ∧ _nextOption this = Undefined
  ∧ _firstOption this = Undefined
  ∧ _lastOption this = Undefined
  ∧ (altKey event = false →
     keyCode event ∈ [UP; LEFT; DOWN; RIGHT; HOME; END] →
     _onKeyDown event this = (Throw TypeError, preventDefault event, this)).
Proof.
  destruct this as [a l d]. cbn. intros ->.
  split_and!; [reflexivity..|].
  intros Halt Hkey. unfold _onKeyDown. rewrite Halt.
  repeat (apply elem_of_cons in Hkey as [->|Hkey]; [reflexivity|]).
  by apply elem_of_nil in Hkey.
Qed.

(** C9: in a listbox with no option, the focus handler throws a
    [TypeError] when it reads the [id] of the selected-or-first option;
    nothing is set and nothing is dispatched. *)
Theorem focus_on_empty_listbox this :
  options this = [] →
  or_else (_selectedOption this) (_firstOption this) = Undefined
  ∧ _onFocus this = (Throw TypeError, this).
Proof.
  destruct this as [a l d]. cbn. intros ->. split; reflexivity.
Qed.

(** *** The value of the selected option *)

(** C10, amended.  [get value()] returns and changes nothing.  When the
    selected option has no [value] attribute it returns [null], not the
    empty string.  It returns the empty string exactly when no option is
    selected or the selected option's [value] attribute is itself the
    empty string. *)
Theorem get_value_of_selected this :
  ∃ r,
    get_value this = (Normal r, this)
    ∧ (∀ i o, _selectedOption this = OptionAt i → options this !! i = Some o →
         getAttribute "value" o = None → r = JNull)
    ∧ (r = JStr EmptyString ↔
         _selectedOption this = Undefined
         ∨ ∃ i o, _selectedOption this = OptionAt i
                  ∧ options this !! i = Some o
                  ∧ getAttribute "value" o = Some EmptyString).
Proof.
  destruct (_selectedOption this) as [|i|e] eqn:Hi.
  - eexists. split; [by apply get_value_unselected|].
    split; [done|]. split; auto.
  - destruct (_selectedOption_lookup _ _ Hi) as (o & Ho & _).
    eexists. split; [by eapply get_value_at|]. split.
    + intros i' o' [= <-] Ho' Hv. rewrite Ho in Ho'. injection Ho' as <-.
      unfold ListboxOption.get_value. by rewrite Hv.
    + unfold ListboxOption.get_value. split.
      * intros Hr. right. exists i, o. split_and!; [done..|].
        destruct (getAttribute "value" o); cbn in Hr; congruence.
      * intros [|(i' & o' & [= <-] & Ho' & Hv)]; [done|].
        rewrite Ho in Ho'. injection Ho' as <-. by rewrite Hv.
  - unfold _selectedOption, find in Hi. by destruct (list_find _ _) as [[??]|].
Qed.

(** *** The [selected] setter and [aria-selected] *)

(** X7: [selected = v] with a truthy [v] writes [aria-selected='true'];
    with a falsy [v] on a selected option it writes
    [aria-selected='false']; with a falsy [v] on an unselected option it
    changes nothing at all.  It touches no attribute but [selected] and
    [aria-selected]. *)
Theorem set_selected_effect v o :
  (to_boolean v = true →
     ListboxOption.attributes (set_selected v o) !! "aria-selected" = Some "true")
  ∧ (to_boolean v = false → get_selected o = true →
     ListboxOption.attributes (set_selected v o) !! "aria-selected" = Some "false")
  ∧ (to_boolean v = false → get_selected o = false → set_selected v o = o)
  ∧ (∀ k, k ≠ "selected" → k ≠ "aria-selected" →
     ListboxOption.attributes (set_selected v o) !! k = ListboxOption.attributes o !! k).
Proof.
  split_and!; [..|intros k ??; by apply set_selected_lookup].
  all: unfold set_selected, get_selected, ListboxOption.hasAttribute,
    ListboxOption.setAttribute, ListboxOption.removeAttribute;
    rewrite observed_selected; intros ->.
  - cbn. by rewrite lookup_insert_eq.
  - destruct (ListboxOption.attributes o !! "selected"); [|done].
    intros _. cbn. by rewrite lookup_insert_eq.
  - by destruct (ListboxOption.attributes o !! "selected").
Qed.

Lemma set_selected_unselected o :
  get_selected o = false → set_selected (JBool false) o = o.
Proof.
  unfold set_selected, get_selected, ListboxOption.hasAttribute,
    ListboxOption.removeAttribute. cbn.
  by destruct (ListboxOption.attributes o !! "selected").
Qed.

Lemma reset_fixed l :
  unselected l → set_selected (JBool false) <$> l = l.
Proof.
  induction 1 as [|o l Ho _ IH]; [done|].
  cbn. by rewrite IH, set_selected_unselected.
Qed.

(** X8: [reset()] on a listbox with no option selected changes nothing,
    and a second [reset()] changes nothing after a first. *)
Theorem reset_twice this :
  (reset;; reset) this = reset this
  ∧ (_selectedOption this = Undefined → reset this = (Normal tt, this)).
Proof.
  split.
  - unfold mbind, M_bind. rewrite reset_eq. rewrite reset_eq.
    unfold with_options. cbn. by rewrite reset_fixed by apply unselected_reset.
  - intros Hs. apply _selectedOption_None, list_find_None in Hs.
    rewrite reset_eq, reset_fixed; [by destruct this|].
    eapply Forall_impl; [exact Hs|]. intros o Ho. cbn in Ho.
    by apply Is_true_false_1.
Qed.

(** *** What selecting leaves alone *)

Lemma preserved_refl this : preserved this this.
Proof. by repeat split. Qed.

Lemma preserved_trans this1 this2 this3 :
  preserved this1 this2 → preserved this2 this3 → preserved this1 this3.
Proof.
  intros (L1 & V1 & I1 & D1 & A1) (L2 & V2 & I2 & D2 & A2).
  split_and!; try congruence. intros k Hk. by rewrite A2, A1.
Qed.

Lemma fmap_set_selected_alter {A} (p : DashOption → A) v j l :
  (∀ o, p (set_selected v o) = p o) →
  p <$> alter (set_selected v) j l = p <$> l.
Proof.
  intros Hp. apply list_eq. intros k. rewrite !list_lookup_fmap.
  destruct (decide (j = k)) as [->|].
  - rewrite list_lookup_alter_eq. destruct (l !! k); cbn; by rewrite ?Hp.
  - by rewrite list_lookup_alter_ne.
Qed.

Lemma fmap_set_selected {A} (p : DashOption → A) v l :
  (∀ o, p (set_selected v o) = p o) →
  p <$> (set_selected v <$> l) = p <$> l.
Proof.
  intros Hp. rewrite <- list_fmap_compose. apply list_fmap_ext.
  intros _ o _. apply Hp.
Qed.

Lemma preserved_reset this : preserved this (reset this).2.
Proof.
  rewrite reset_eq. unfold preserved, with_options. cbn. split_and!; [|..|done|done].
  - by rewrite length_fmap.
  - apply fmap_set_selected, get_value_set_selected.
  - apply fmap_set_selected, get_id_set_selected.
Qed.

Lemma preserved_selectOption target this :
  preserved this (_selectOption target this).2.
Proof.
  destruct (preserved_reset this) as (L & V & I & D & A).
  rewrite reset_eq in L, V, I. unfold with_options in L, V, I. cbn in L, V, I.
  unfold preserved, with_options.
  assert (∀ k s, k ≠ "aria-activedescendant" →
    <["aria-activedescendant" := s]> (attributes this) !! k = attributes this !! k)
    as Ha by (intros k s ?; by rewrite lookup_insert_ne).
  destruct target as [|j|e].
  - rewrite _selectOption_undefined. by split_and!.
  - destruct (options this !! j) as [o|] eqn:Ho.
    + rewrite (_selectOption_at _ _ _ Ho). cbn. split_and!; [|..|done|by auto].
      * by rewrite length_alter.
      * rewrite fmap_set_selected_alter; [done|apply get_value_set_selected].
      * rewrite fmap_set_selected_alter; [done|apply get_id_set_selected].
    + rewrite _selectOption_stale by done. by split_and!.
  - rewrite _selectOption_other. cbn. by split_and!; auto.
Qed.

Lemma preserved_perform op this : preserved this (perform op this).2.
Proof.
  destruct op as [target| |val]; cbn [perform].
  - apply preserved_selectOption.
  - apply preserved_reset.
  - rewrite set_value_eq. destruct (list_find _ _) as [[i ?]|].
    + apply preserved_selectOption.
    + apply preserved_reset.
Qed.

(** X9: however many calls of [_selectOption], [reset] and [value = v]
    are made, with whatever arguments, they leave the number of options,
    the value and the identifier of each, the events dispatched so far and
    every attribute of the listbox but [aria-activedescendant] as they
    were: programmatic selection dispatches nothing. *)
Theorem run_preserved ops this : preserved this (run ops this).
Proof.
  unfold run. revert this. induction ops as [|op ops IH]; intros this; cbn [foldl].
  - apply preserved_refl.
  - eapply preserved_trans; [apply preserved_perform|apply IH].
Qed.

(** *** Wrapping around *)

(** X10: from the [i]-th of [n] options, [_nextOption()] is the option
    after it, and the first option after the last; [_prevOption()] is the
    option before it, and the last option before the first. *)
Theorem navigation_wraps this i :
  _selectedOption this = OptionAt i →
  _nextOption this
    = OptionAt (if decide (S i = length (options this)) then 0 else S i)%nat
  ∧ _prevOption this
    = OptionAt (if decide (i = 0) then length (options this) - 1 else i - 1)%nat.
Proof.
  intros Hi. pose proof (_selectedOption_lt _ _ Hi) as Hlt.
  rewrite (_nextOption_at _ _ Hi), (_prevOption_at _ _ Hi).
  set (n := length (options this)) in *. split; f_equal.
  - destruct (decide (S i = n)) as [E|E].
    + replace (i + 1)%nat with n by lia. apply Nat.Div0.mod_same.
    + rewrite Nat.mod_small; lia.
  - destruct (decide (i = 0%nat)) as [->|E].
    + rewrite Nat.mod_small; lia.
    + replace (i + (n - 1))%nat with ((i - 1) + 1 * n)%nat by lia.
      rewrite Nat.Div0.mod_add, Nat.mod_small; lia.
Qed.

(** *** The handlers on a listbox with options *)

Lemma _selectedOption_options this this' :
  options this' = options this → _selectedOption this' = _selectedOption this.
Proof. unfold _selectedOption, _allOptions. by intros ->. Qed.

Lemma selected_count_options this this' :
  options this' = options this → selected_count this' = selected_count this.
Proof. unfold selected_count. by intros ->. Qed.

Lemma get_value_options this this' :
  options this' = options this → (get_value this').1 = (get_value this).1.
Proof.
  intros Ho. pose proof (_selectedOption_options _ _ Ho) as Hs.
  unfold get_value, read, mbind, M_bind, gets, element. rewrite Hs.
  destruct (_selectedOption this) as [|i|e]; [done| |done].
  rewrite Ho. by destruct (options this !! i).
Qed.

(** Selecting the [j]-th option and dispatching: what [_onKeyDown] and
    [_onClick] end with. *)
Lemma select_and_dispatch this j o :
  options this !! j = Some o →
  ∃ this',
    (_selectOption (OptionAt j);; _dispatch "input") this = (Normal tt, this')
    ∧ _selectedOption this' = OptionAt j
    ∧ selected_count this' = 1%nat
    ∧ attributes this' !! "aria-activedescendant" = Some (get_id o)
    ∧ dispatched this' = (dispatched this ++ [input_event (ListboxOption.get_value o)])%list
    ∧ preserved this (with_options (options this') this).
Proof.
  intros Ho.
  destruct (_selectOption_in this j) as (this1 & E1 & Hs & Hc & _ & _ & Hd);
    [by eapply lookup_lt_Some|].
  pose proof (preserved_selectOption (OptionAt j) this) as Hp.
  rewrite E1 in Hp. cbn in Hp.
  pose proof E1 as E1'. rewrite (_selectOption_at _ _ _ Ho) in E1'.
  injection E1' as E1'.
  destruct (_selectedOption_lookup _ _ Hs) as (o1 & Ho1 & _).
  assert (ListboxOption.get_value o1 = ListboxOption.get_value o) as Hv.
  { rewrite <- E1' in Ho1. cbn in Ho1.
    rewrite list_lookup_alter_eq, list_lookup_fmap, Ho in Ho1.
    injection Ho1 as <-. by rewrite !get_value_set_selected. }
  unfold mbind at 1. unfold M_bind at 1. rewrite E1.
  unfold _dispatch, mbind, M_bind, modify.
  rewrite (get_value_at _ _ _ Hs Ho1), Hv.
  eexists. split; [done|]. cbn. split_and!.
  - by rewrite <- Hs.
  - by rewrite <- Hc.
  - rewrite <- E1'. cbn. by rewrite lookup_insert_eq.
  - by rewrite Hd.
  - destruct Hp as (L & V & I & D & A). by split_and!.
Qed.

(** On a listbox with options every navigation gives an option. *)
Lemma navigation_defined this :
  options this ≠ [] →
  ∀ navigate,
    navigate = _prevOption ∨ navigate = _nextOption
    ∨ navigate = _firstOption ∨ navigate = _lastOption →
    ∃ j o, navigate this = OptionAt j ∧ options this !! j = Some o.
Proof.
  intros Hn.
  assert (0 < length (options this))%nat as Hlen
    by (destruct (options this); [done|cbn; lia]).
  assert (∀ j navigate, (j < length (options this))%nat → navigate this = OptionAt j →
    ∃ j o, navigate this = OptionAt j ∧ options this !! j = Some o) as Hin.
  { intros j navigate Hj Hnav. destruct (lookup_lt_is_Some_2 _ _ Hj) as [o Ho]. eauto. }
  intros navigate [-> | [-> | [-> | ->]]].
  - destruct (_selectedOption this) as [|i|e] eqn:Hs.
    + eapply Hin; [|by apply _prevOption_unselected]. lia.
    + eapply Hin; [|by apply _prevOption_at]. apply Nat.mod_upper_bound. lia.
    + unfold _selectedOption, find in Hs. by destruct (list_find _ _) as [[??]|].
  - destruct (_selectedOption this) as [|i|e] eqn:Hs.
    + eapply Hin; [|by apply _nextOption_unselected]. lia.
    + eapply Hin; [|by apply _nextOption_at]. apply Nat.mod_upper_bound. lia.
    + unfold _selectedOption, find in Hs. by destruct (list_find _ _) as [[??]|].
  - eapply (Hin 0%nat); [done|]. by apply (index_in (options this) 0).
  - eapply (Hin (length (options this) - 1)%nat); [lia|].
    unfold _lastOption, _allOptions.
    replace (Z.of_nat (length (options this)) - 1)
      with (Z.of_nat (length (options this) - 1)) by lia.
    apply index_in. lia.
Qed.

Lemma _onKeyDown_navigation event this :
  altKey event = false →
  keyCode event ∈ [UP; LEFT; DOWN; RIGHT; HOME; END] →
  ∃ navigate,
    (navigate = _prevOption ∨ navigate = _nextOption
     ∨ navigate = _firstOption ∨ navigate = _lastOption)
    ∧ (keyCode event = HOME → navigate = _firstOption)
    ∧ (keyCode event = END → navigate = _lastOption)
    ∧ _onKeyDown event this =
        let '(result, this') :=
          (_selectOption (navigate this);; _dispatch "input") this in
        (result, preventDefault event, this').
Proof.
  intros Halt Hkey. unfold _onKeyDown. rewrite Halt.
  repeat (apply elem_of_cons in Hkey as [->|Hkey];
    [eexists; split_and!; [..|reflexivity]; by auto|]).
  by apply elem_of_nil in Hkey.
Qed.

(** X11: on a listbox with at least one option, a press of an arrow key,
    Home or End without Alt never throws.  It prevents the default action,
    leaves one option selected, and it alone, points
    [aria-activedescendant] at it, and dispatches one [input] event with
    its value; the options, their values and identifiers stay. *)
Theorem _onKeyDown_selects event this :
  options this ≠ [] →
  altKey event = false →
  keyCode event ∈ [UP; LEFT; DOWN; RIGHT; HOME; END] →
  ∃ j o this',
    options this !! j = Some o
    ∧ _onKeyDown event this = (Normal tt, preventDefault event, this')
    ∧ _selectedOption this' = OptionAt j
    ∧ selected_count this' = 1%nat
    ∧ attributes this' !! "aria-activedescendant" = Some (get_id o)
    ∧ dispatched this' = (dispatched this ++ [input_event (ListboxOption.get_value o)])%list
    ∧ preserved this (with_options (options this') this).
Proof.
  intros Hn Halt Hkey.
  destruct (_onKeyDown_navigation event this Halt Hkey) as (navigate & Hnav & _ & _ & E).
  destruct (navigation_defined this Hn navigate Hnav) as (j & o & Ej & Ho).
  destruct (select_and_dispatch this j o Ho) as (this' & E' & ?).
  rewrite Ej, E' in E. by exists j, o, this'.
Qed.

(** X12: on a listbox with at least one option, Home selects the first
    option and End the last, whichever was selected. *)
Theorem home_and_end this :
  options this ≠ [] →
  _selectedOption (_onKeyDown (keydown false HOME) this).2 = OptionAt 0
  ∧ _selectedOption (_onKeyDown (keydown false END) this).2
    = OptionAt (length (options this) - 1).
Proof.
  intros Hn.
  assert (0 < length (options this))%nat as Hlen
    by (destruct (options this); [done|cbn; lia]).
  assert (_firstOption this = OptionAt 0) as Hfirst
    by (by apply (index_in (options this) 0)).
  assert (_lastOption this = OptionAt (length (options this) - 1)) as Hlast.
  { unfold _lastOption, _allOptions.
    replace (Z.of_nat (length (options this)) - 1)
      with (Z.of_nat (length (options this) - 1)) by lia.
    apply index_in. lia. }
  split.
  - destruct (_onKeyDown_navigation (keydown false HOME) this)
      as (navigate & _ & Hnav & _ & E);
      [done | by repeat (try apply list_elem_of_here; apply list_elem_of_further) |].
    rewrite (Hnav eq_refl) in E.
    destruct (lookup_lt_is_Some_2 (options this) 0 Hlen) as [o Ho].
    destruct (select_and_dispatch this 0 o Ho) as (this' & E' & Hs & _).
    rewrite Hfirst, E' in E. by rewrite E.
  - destruct (_onKeyDown_navigation (keydown false END) this)
      as (navigate & _ & _ & Hnav & E);
      [done | by repeat (try apply list_elem_of_here; apply list_elem_of_further) |].
    rewrite (Hnav eq_refl) in E.
    destruct (lookup_lt_is_Some_2 (options this) (length (options this) - 1))
      as [o Ho]; [lia|].
    destruct (select_and_dispatch this _ o Ho) as (this' & E' & Hs & _).
    rewrite Hlast, E' in E. by rewrite E.
Qed.

Lemma read_Some {A} r (p : DashOption → A) this o :
  element r this = Some o → read r p this = (Normal (p o), this).
Proof. intros Ho. unfold read, mbind, M_bind, gets. by rewrite Ho. Qed.

(** X13: a click whose target has no [role='option'] changes nothing and
    dispatches nothing; a click on an option of the listbox that has it
    leaves that option selected, and it alone, points
    [aria-activedescendant] at it, and dispatches one [input] event with
    its value. *)
Theorem _onClick_effect target this :
  (∀ e, element target this = Some e → getAttribute "role" e ≠ Some "option" →
     _onClick target this = (Normal tt, this))
  ∧ (∀ j o, target = OptionAt j → options this !! j = Some o →
       getAttribute "role" o = Some "option" →
       ∃ this',
         _onClick target this = (Normal tt, this')
         ∧ _selectedOption this' = OptionAt j
         ∧ selected_count this' = 1%nat
         ∧ attributes this' !! "aria-activedescendant" = Some (get_id o)
         ∧ dispatched this'
           = (dispatched this ++ [input_event (ListboxOption.get_value o)])%list
         ∧ preserved this (with_options (options this') this)).
Proof.
  split.
  - intros e He Hr. unfold _onClick, mbind, M_bind.
    rewrite (read_Some _ _ _ _ He). by rewrite bool_decide_eq_true_2.
  - intros j o -> Ho Hr.
    destruct (select_and_dispatch this j o Ho) as (this' & E & ?).
    exists this'. split; [|done].
    unfold _onClick. unfold mbind at 1. unfold M_bind at 1.
    rewrite (read_Some _ _ _ o) by done. rewrite Hr.
    rewrite bool_decide_eq_false_2 by (by intros []). exact E.
Qed.

(** X14: on a listbox with at least one option, gaining focus never
    throws.  It points [aria-activedescendant] at the selected option, or
    at the first option when none is selected, dispatches one [input]
    event with the value the listbox has, and changes no option. *)
Theorem _onFocus_effect this :
  options this ≠ [] →
  ∃ j o v,
    or_else (_selectedOption this) (_firstOption this) = OptionAt j
    ∧ (_selectedOption this = Undefined → j = 0%nat)
    ∧ options this !! j = Some o
    ∧ get_value this = (Normal v, this)
    ∧ _onFocus this =
        (Normal tt,
         {| attributes := <["aria-activedescendant" := get_id o]> (attributes this);
            options := options this;
            dispatched := (dispatched this ++ [input_event v])%list |}).
Proof.
  intros Hn.
  assert (0 < length (options this))%nat as Hlen
    by (destruct (options this); [done|cbn; lia]).
  assert (_firstOption this = OptionAt 0) as Hfirst
    by (by apply (index_in (options this) 0)).
  assert (∃ j o, or_else (_selectedOption this) (_firstOption this) = OptionAt j
                 ∧ (_selectedOption this = Undefined → j = 0%nat)
                 ∧ options this !! j = Some o) as (j & o & Hj & H0 & Ho).
  { destruct (_selectedOption this) as [|i|e] eqn:Hs.
    - destruct (lookup_lt_is_Some_2 (options this) 0 Hlen) as [o Ho].
      exists 0%nat, o. by rewrite Hfirst.
    - destruct (_selectedOption_lookup _ _ Hs) as (o & Ho & _).
      exists i, o. by split_and!.
    - unfold _selectedOption, find in Hs. by destruct (list_find _ _) as [[??]|]. }
  destruct (get_value_returns this) as [v Hv].
  exists j, o, v. split_and!; [done..|].
  unfold _onFocus. unfold mbind at 1. unfold M_bind at 1.
  unfold gets at 1. rewrite Hj. unfold mbind at 1. unfold M_bind at 1.
  rewrite (read_Some _ _ _ o) by done.
  unfold mbind, M_bind, setAttribute, modify, _dispatch.
  set (this1 := {| attributes := _; options := options this; dispatched := dispatched this |}).
  pose proof (get_value_options this this1 eq_refl) as Hv1.
  rewrite Hv in Hv1. cbn in Hv1.
  destruct (get_value_returns this1) as [v1 Hv1'].
  unfold mbind, M_bind. rewrite Hv1' in Hv1 |- *. cbn in Hv1. by injection Hv1 as ->.
Qed.

(** [set value] does not throw. *)
Lemma set_value_returns val this :
  ∃ this', set_value val this = (Normal tt, this').
Proof.
  rewrite set_value_eq.
  destruct (list_find _ _) as [[i o]|] eqn:E.
  - apply list_find_Some in E as (Ho & _). erewrite _selectOption_at by done. eauto.
  - rewrite reset_eq. eauto.
Qed.
End ListboxFacts.

(** *** Runs on concrete listboxes *)

(** The keyboard scenario: of the options [a], [b], [c] none is selected;
    Down selects [a], Down again [b], End [c], and Down wraps to [a].  Each
    press dispatches an [input] event with the value. *)
Example keyboard_scenario :
  let press code this := (_onKeyDown (keydown false code) this).2 in
  let this0 := listbox_of [option_element false (Some "a"); option_element false (Some "b");
                           option_element false (Some "c")] in
  let this1 := press DOWN this0 in
  let this2 := press DOWN this1 in
  let this3 := press END this2 in
  let this4 := press DOWN this3 in
  (get_value this1).1 = Normal (JStr "a")
  ∧ (get_value this2).1 = Normal (JStr "b")
  ∧ (get_value this3).1 = Normal (JStr "c")
  ∧ (get_value this4).1 = Normal (JStr "a")
  ∧ detail <$> dispatched this4 =
      [("value", JStr "a"); ("value", JStr "b"); ("value", JStr "c"); ("value", JStr "a")].
Proof. repeat split; reflexivity. Qed.

(** The number 1 finds the option with the value ['1'], and the read that
    follows returns the string. *)
Example set_value_number_finds_string :
  let this := listbox_of [option_element false (Some "a"); option_element false (Some "1")] in
  ((set_value (JNum (Some 1));; get_value) this).1 = Normal (JStr "1").
Proof. reflexivity. Qed.

(** C4, run: two options are selected in the markup; after a selection of
  the second, a value that matches nothing and a value that matches the
  first, at most one is. *)
Lemma at_most_one_selected_run :
(selected_count
   (run [SelectOption (OptionAt 1); SetValue (JStr "x"); SetValue (JStr "a")]
      (listbox_of [option_element true (Some "a"); option_element true (Some "b")]))
 ≤ 1)%nat.
Proof. apply at_most_one_selected. left. discriminate. Defined.

(** C5 as stated fails: with the one option [a], [value = ''] matches no
  option, and the read that follows returns [''], which is the value
  that was set. *)
Lemma set_value_empty_string_unmatched :
let this := listbox_of [option_element false (Some "a")] in
((set_value (JStr EmptyString);; get_value) this).1 = Normal (JStr EmptyString)
∧ ¬ matched (JStr EmptyString) this.
Proof.
split; [reflexivity|].
intros (o & Ho & Hm). apply list_elem_of_singleton in Ho as ->.
change (false = true) in Hm. discriminate.
Qed.

(** C6 as stated fails: with three options and none selected, three steps
  forward end on the last option, not on no selection. *)
Lemma next_round_trip_from_no_selection :
let this := listbox_of [option_element false (Some "a"); option_element false (Some "b");
                        option_element false (Some "c")] in
let this' := (times (length (options this)) select_next this).2 in
_selectedOption this = Undefined
∧ selection this = [false; false; false]
∧ _selectedOption this' = OptionAt 2
∧ selection this' = [false; false; true].
Proof. repeat split; reflexivity. Qed.

(** C6, run: the second of three options is selected; three steps forward
  select it again. *)
Lemma next_round_trip_run :
let this := listbox_of [option_element false (Some "a"); option_element true (Some "b");
                        option_element false (Some "c")] in
_selectedOption this = OptionAt 1
∧ ∃ this',
    times (length (options this)) select_next this = (Normal tt, this')
    ∧ _selectedOption this' = OptionAt 1
    ∧ selected_count this' = 1%nat
    ∧ (selected_count this = 1%nat → selection this' = selection this).
Proof.
split; [reflexivity|].
apply next_round_trip. reflexivity.
Defined.

(** C7 as stated fails: with three options and none selected, a step
  forward and a step back end on the last option, not on no
  selection. *)
Lemma next_prev_from_no_selection :
let this := listbox_of [option_element false (Some "a"); option_element false (Some "b");
                        option_element false (Some "c")] in
let this' := ((select_next;; select_prev) this).2 in
_selectedOption this = Undefined
∧ selection this = [false; false; false]
∧ _selectedOption this' = OptionAt 2
∧ selection this' = [false; false; true].
Proof. repeat split; reflexivity. Qed.

(** C7, run: the first of three options is selected; forward then back,
  and back then forward, select it again. *)
Lemma next_prev_inverse_run :
let this := listbox_of [option_element true (Some "a"); option_element false (Some "b");
                        option_element false (Some "c")] in
_selectedOption this = OptionAt 0
∧ ∃ there back,
    (select_next;; select_prev) this = (Normal tt, there)
    ∧ (select_prev;; select_next) this = (Normal tt, back)
    ∧ _selectedOption there = OptionAt 0
    ∧ _selectedOption back = OptionAt 0
    ∧ selected_count there = 1%nat
    ∧ selected_count back = 1%nat
    ∧ (selected_count this = 1%nat →
         selection there = selection this ∧ selection back = selection this).
Proof.
split; [reflexivity|].
apply next_prev_inverse. reflexivity.
Defined.

(** C8, run: Down on a listbox with no option. *)
Lemma navigation_on_empty_listbox_run :
let this := listbox_of [] in
let event := keydown false DOWN in
options this = []
∧ _nextOption this = Undefined
∧ _onKeyDown event this = (Throw TypeError, preventDefault event, this).
Proof.
split; [reflexivity|].
destruct (navigation_on_empty_listbox (listbox_of []) (keydown false DOWN) eq_refl)
  as (_ & Hnext & _ & _ & Hkey).
split; [exact Hnext|].
apply Hkey; [reflexivity|]. unfold DOWN, UP, LEFT. set_solver.
Defined.

(** C9, run: focus on a listbox with no option. *)
Lemma focus_on_empty_listbox_run :
let this := listbox_of [] in
options this = [] ∧ _onFocus this = (Throw TypeError, this).
Proof.
split; [reflexivity|].
apply (focus_on_empty_listbox (listbox_of []) eq_refl).
Defined.

(** C10 as stated fails: the selected option has the attribute
  [value=''], and the read returns the empty string with an option
  selected. *)
Lemma get_value_empty_string_selected :
let this := listbox_of [option_element true (Some EmptyString)] in
(get_value this).1 = Normal (JStr EmptyString)
∧ _selectedOption this = OptionAt 0.
Proof. repeat split; reflexivity. Qed.

(** X10, run: the second of three options is selected; the next option is
    the third, the previous one the first. *)
Lemma navigation_wraps_run :
  let this := listbox_of [option_element false (Some "a"); option_element true (Some "b");
                          option_element false (Some "c")] in
  _selectedOption this = OptionAt 1
  ∧ _nextOption this = OptionAt 2
  ∧ _prevOption this = OptionAt 0.
Proof.
  split; [reflexivity|].
  apply (navigation_wraps
           (listbox_of [option_element false (Some "a"); option_element true (Some "b");
                        option_element false (Some "c")]) 1).
  reflexivity.
Defined.

(** X11, run: Down on three options, none selected. *)
Lemma _onKeyDown_selects_run :
  let this := listbox_of [option_element false (Some "a"); option_element false (Some "b");
                          option_element false (Some "c")] in
  let event := keydown false DOWN in
  options this ≠ []
  ∧ altKey event = false
  ∧ ∃ j o this',
      options this !! j = Some o
      ∧ _onKeyDown event this = (Normal tt, preventDefault event, this')
      ∧ _selectedOption this' = OptionAt j
      ∧ selected_count this' = 1%nat
      ∧ attributes this' !! "aria-activedescendant" = Some (get_id o)
      ∧ dispatched this'
        = (dispatched this ++ [input_event (ListboxOption.get_value o)])%list
      ∧ preserved this (with_options (options this') this).
Proof.
  split; [discriminate|]. split; [reflexivity|].
  apply _onKeyDown_selects; [discriminate|reflexivity|].
  do 2 apply list_elem_of_further. apply list_elem_of_here.
Defined.

(** X12, run: Home and End on three options, the second selected. *)
Lemma home_and_end_run :
  let this := listbox_of [option_element false (Some "a"); option_element true (Some "b");
                          option_element false (Some "c")] in
  options this ≠ []
  ∧ _selectedOption (_onKeyDown (keydown false HOME) this).2 = OptionAt 0
  ∧ _selectedOption (_onKeyDown (keydown false END) this).2 = OptionAt 2.
Proof.
  split; [discriminate|].
  apply (home_and_end
           (listbox_of [option_element false (Some "a"); option_element true (Some "b");
                        option_element false (Some "c")])).
  discriminate.
Defined.

(** X14, run: focus on two options, none selected. *)
Lemma _onFocus_effect_run :
  let this := listbox_of [option_element false (Some "a"); option_element false (Some "b")] in
  options this ≠ []
  ∧ ∃ j o v,
      or_else (_selectedOption this) (_firstOption this) = OptionAt j
      ∧ (_selectedOption this = Undefined → j = 0%nat)
      ∧ options this !! j = Some o
      ∧ get_value this = (Normal v, this)
      ∧ _onFocus this =
          (Normal tt,
           {| attributes := <["aria-activedescendant" := get_id o]> (attributes this);
              options := options this;
              dispatched := (dispatched this ++ [input_event v])%list |}).
Proof.
  split; [discriminate|].
  apply _onFocus_effect. discriminate.
Defined.
End ListboxFacts.

(** * Properties of the elements in a document *)

Module CheckboxHostFacts.
Import Checkbox CheckboxHost.
Section CheckboxHostFacts.
Context `{JsNumber}.

Implicit Types (this : Host) (i : input).

(** X15: the checkbox in and out of the document.  Connecting a second
    time changes nothing, so no event is ever handled twice:
    after two connections a click toggles once.  Disconnecting changes no
    attribute, and a disconnected checkbox takes no click and no key. *)
Theorem checkbox_connection this i :
  connectedCallback (connectedCallback this) = connectedCallback this
  ∧ element (deliver Pointer (connectedCallback (connectedCallback this)))
    = _onClick (Checkbox.connectedCallback (element this))
  ∧ element (disconnectedCallback this) = element this
  ∧ deliver i (disconnectedCallback this) = disconnectedCallback this
  ∧ deliver i (disconnectedCallback (connectedCallback this))
    = disconnectedCallback (connectedCallback this).
Proof.
  assert (connectedCallback (connectedCallback this) = connectedCallback this) as Hcc.
  { unfold connectedCallback. cbn.
    rewrite CheckboxFacts.connectedCallback_idempotent. f_equal.
    apply set_eq. intros x. rewrite !elem_of_union. tauto. }
  assert (∀ this, deliver i (disconnectedCallback this) = disconnectedCallback this)
    as Hd.
  { intros h. unfold deliver, disconnectedCallback. cbn.
    destruct i; rewrite bool_decide_eq_false_2; try done;
      rewrite !elem_of_difference, !elem_of_singleton; tauto. }
  split_and!; [done| |done|apply Hd..].
  rewrite Hcc. unfold deliver, connectedCallback. cbn.
  rewrite bool_decide_eq_true_2; [done|].
  rewrite !elem_of_union, !elem_of_singleton. tauto.
Qed.
End CheckboxHostFacts.
End CheckboxHostFacts.

Module OptionHostFacts.
Import Listbox ListboxOption OptionHost.
Section OptionHostFacts.
Context `{JsNumber}.
Variable N : number → string.

Implicit Types (this : Host) (o : DashOption) (v : value) (c : nat).

(** *** The [value] of an option *)

Lemma attributes_set_value v o :
  ListboxOption.attributes (set_value N v o)
  = <["value" := to_string N v]> (ListboxOption.attributes o).
Proof. reflexivity. Qed.

Lemma get_value_set_value v o :
  ListboxOption.get_value (set_value N v o) = JStr (to_string N v).
Proof.
  unfold ListboxOption.get_value, getAttribute.
  by rewrite attributes_set_value, lookup_insert_eq.
Qed.

Lemma get_selected_set_value v o :
  get_selected (set_value N v o) = get_selected o.
Proof.
  unfold get_selected, ListboxOption.hasAttribute.
  by rewrite attributes_set_value, lookup_insert_ne.
Qed.

Lemma get_id_set_value v o : get_id (set_value N v o) = get_id o.
Proof. unfold get_id, getAttribute. by rewrite attributes_set_value, lookup_insert_ne. Qed.

(** X16: [value = v] on an option, then a read of [value], gives the
    string [v] converts to: [v] itself for a string, but the string
    ['null'] for [null], which a listbox asked for the value [null] does
    not find.  The read never gives [null] again, and [selected] and the
    identifier stay. *)
Theorem option_value_round_trip v o :
  ListboxOption.get_value (set_value N v o) = JStr (to_string N v)
  ∧ (∀ s, ListboxOption.get_value (set_value N (JStr s) o) = JStr s)
  ∧ ListboxOption.get_value (set_value N JNull o) = JStr "null"
  ∧ matches JNull (set_value N JNull o) = false
  ∧ get_selected (set_value N v o) = get_selected o
  ∧ get_id (set_value N v o) = get_id o.
Proof.
  split_and!; [apply get_value_set_value|intros s; apply get_value_set_value
              |apply get_value_set_value| | |].
  - unfold matches. by rewrite get_value_set_value.
  - apply get_selected_set_value.
  - apply get_id_set_value.
Qed.

(** *** Connecting an option *)

Lemma get_mounted this :
  OptionHost.get "_mounted" this = default JUndefined (own this !! "_mounted").
Proof. unfold OptionHost.get. by destruct (own this !! "_mounted"). Qed.

Lemma mount_eq this :
  mount N this =
    {| element := element this;
       own := <["_mounted" := JBool true]> (own this);
       shadow := S (shadow this) |}.
Proof. unfold mount, OptionHost.set. cbn. by destruct (own this !! "_mounted"). Qed.

Lemma get_id_property this :
  own this !! "id" = None → OptionHost.get "id" this = JStr (get_id (element this)).
Proof. intros Ho. unfold OptionHost.get. by rewrite Ho. Qed.

Lemma set_id_property s this :
  own this !! "id" = None →
  OptionHost.set N "id" (JStr s) this
  = with_element (setAttribute "id" s (element this)) this.
Proof. intros Ho. unfold OptionHost.set. by rewrite Ho. Qed.

Lemma upgradeProperty_selected this :
  upgradeProperty N "selected" this =
    {| element := match own this !! "selected" with
                  | Some v => set_selected v (element this)
                  | None => element this
                  end;
       own := delete "selected" (own this);
       shadow := shadow this |}.
Proof.
  unfold upgradeProperty, hasOwnProperty, OptionHost.get, delete_property, OptionHost.set.
  destruct (own this !! "selected") as [v|] eqn:E.
  - rewrite bool_decide_eq_true_2 by (by eexists). cbn. by rewrite lookup_delete_eq.
  - rewrite bool_decide_eq_false_2 by (by intros [??]).
    rewrite delete_id by done. by destruct this.
Qed.

Lemma upgradeProperty_value this :
  upgradeProperty N "value" this =
    {| element := match own this !! "value" with
                  | Some v => set_value N v (element this)
                  | None => element this
                  end;
       own := delete "value" (own this);
       shadow := shadow this |}.
Proof.
  unfold upgradeProperty, hasOwnProperty, OptionHost.get, delete_property, OptionHost.set.
  destruct (own this !! "value") as [v|] eqn:E.
  - rewrite bool_decide_eq_true_2 by (by eexists). cbn. by rewrite lookup_delete_eq.
  - rewrite bool_decide_eq_false_2 by (by intros [??]).
    rewrite delete_id by done. by destruct this.
Qed.

Lemma attributes_setAttribute_role o :
  ListboxOption.attributes (setAttribute "role" "option" o)
  = <["role" := "option"]> (ListboxOption.attributes o).
Proof. reflexivity. Qed.

Lemma attributes_setAttribute_id s o :
  ListboxOption.attributes (setAttribute "id" s o)
  = <["id" := s]> (ListboxOption.attributes o).
Proof. reflexivity. Qed.

Lemma get_id_setAttribute_role o :
  get_id (setAttribute "role" "option" o) = get_id o.
Proof.
  unfold get_id, getAttribute. by rewrite attributes_setAttribute_role, lookup_insert_ne.
Qed.

(** [connectedCallback()] is [connected]. *)
Lemma option_connectedCallback_eq this c :
  own this !! "id" = None →
  connectedCallback N this c = connected N this c.
Proof.
  intros Hid. unfold connectedCallback, connected.
  rewrite get_mounted.
  set (mounted := to_boolean (default JUndefined (own this !! "_mounted"))).
  assert (∀ h : Host, own h !! "id" = None →
    own h !! "selected" = own this !! "selected" →
    own h !! "value" = own this !! "value" →
    get_id (element h) = get_id (element this) →
    (let '(this0, dashOptionCounter0) :=
       if negb (to_boolean (OptionHost.get "id" h))
       then (OptionHost.set N "id"
               (JStr ("dash-option-generated-" +:+ pretty c)) h, S c)
       else (h, c) in
     (upgradeProperty N "value" (upgradeProperty N "selected" this0), dashOptionCounter0))
    = ({| element :=
            let e := element h in
            let e := if String.eqb (get_id (element this)) EmptyString
                     then setAttribute "id" ("dash-option-generated-" +:+ pretty c) e
                     else e in
            let e := match own this !! "selected" with
                     | Some v => set_selected v e | None => e end in
            match own this !! "value" with
            | Some v => set_value N v e | None => e end;
          own := delete "value" (delete "selected" (own h));
          shadow := shadow h |},
       if String.eqb (get_id (element this)) EmptyString then S c else c)) as Hrest.
  { intros h Hh Hs Hv Hi. rewrite get_id_property by done. cbn [to_boolean].
    rewrite Hi, negb_involutive.
    destruct (String.eqb _ EmptyString).
    - rewrite set_id_property by done.
      rewrite upgradeProperty_value, upgradeProperty_selected. cbn.
      rewrite lookup_delete_ne by done. by rewrite Hs, Hv.
    - rewrite upgradeProperty_value, upgradeProperty_selected. cbn.
      rewrite lookup_delete_ne by done. by rewrite Hs, Hv. }
  destruct mounted; cbn [negb]; rewrite ?mount_eq; cbn [element];
    destruct (hasAttribute "role" (element this));
    rewrite Hrest; try done; cbn;
    rewrite ?lookup_insert_ne by done; try done;
    apply get_id_setAttribute_role.
Qed.

(** An attribute other than [selected], [aria-selected] and [value], read
    through the setters. *)
Ltac through :=
  repeat first
    [ rewrite attributes_set_value, lookup_insert_ne by done
    | rewrite ListboxFacts.set_selected_lookup by done
    | rewrite attributes_setAttribute_id
    | rewrite attributes_setAttribute_role
    | rewrite lookup_insert_eq
    | rewrite lookup_insert_ne by done ].

Lemma connected_attribute this c k :
  k ≠ "selected" → k ≠ "aria-selected" → k ≠ "value" →
  ListboxOption.attributes (element (connected N this c).1) !! k =
    if String.eqb k "id" then
      (if String.eqb (get_id (element this)) EmptyString
       then Some ("dash-option-generated-" +:+ pretty c)
       else ListboxOption.attributes (element this) !! "id")
    else if String.eqb k "role" then
      Some (default "option" (ListboxOption.attributes (element this) !! "role"))
    else ListboxOption.attributes (element this) !! k.
Proof.
  intros. unfold connected, hasAttribute. cbn.
  destruct (own this !! "value"), (own this !! "selected"),
    (String.eqb (get_id (element this)) EmptyString),
    (ListboxOption.attributes (element this) !! "role") eqn:Er;
    through;
    destruct (String.eqb_spec k "id") as [->|]; through; try done;
    destruct (String.eqb_spec k "role") as [->|]; through; by rewrite ?Er.
Qed.

Lemma generated_not_empty c :
  String.eqb ("dash-option-generated-" +:+ pretty c) EmptyString = false.
Proof. reflexivity. Qed.

Lemma connected_id this c :
  get_id (element (connected N this c).1) =
    if String.eqb (get_id (element this)) EmptyString
    then "dash-option-generated-" +:+ pretty c
    else get_id (element this).
Proof.
  unfold get_id at 1. unfold getAttribute. rewrite connected_attribute by done.
  cbn [String.eqb Ascii.eqb Bool.eqb].
  destruct (String.eqb _ EmptyString); [done|]. by unfold get_id, getAttribute.
Qed.

Lemma connected_counter this c :
  (connected N this c).2 =
    if String.eqb (get_id (element this)) EmptyString then S c else c.
Proof. reflexivity. Qed.

(** X17: [connectedCallback()] on an option with no identifier (no [id]
    attribute, or an empty one) gives it the identifier
    [dash-option-generated-] followed by the counter in decimal, and
    advances the counter by one; an option with an identifier keeps it and
    leaves the counter.  The option ends with a [role]: its own, else
    [option]. *)
Theorem connectedCallback_identifier this c :
  own this !! "id" = None →
  (anonymous this = true →
     get_id (element (connectedCallback N this c).1)
       = "dash-option-generated-" +:+ pretty c
     ∧ (connectedCallback N this c).2 = S c)
  ∧ (anonymous this = false →
     get_id (element (connectedCallback N this c).1) = get_id (element this)
     ∧ (connectedCallback N this c).2 = c)
  ∧ getAttribute "role" (element (connectedCallback N this c).1)
    = Some (default "option" (getAttribute "role" (element this))).
Proof.
  intros Hid. rewrite option_connectedCallback_eq by done.
  rewrite connected_id, connected_counter. unfold anonymous.
  split_and!; [by intros ->..|].
  unfold getAttribute. by rewrite connected_attribute.
Qed.

(** The identifiers after [connect_all]: the [i]-th option, if it had
    none, gets the counter advanced by the options without identifier
    before it. *)
Lemma connect_all_spec l c :
  Forall (λ this, own this !! "id" = None) l →
  (connect_all N l c).2 = (c + length (filter (λ this, Is_true (anonymous this)) l))%nat
  ∧ ∀ i a, l !! i = Some a →
      ∃ a', (connect_all N l c).1 !! i = Some a'
        ∧ get_id (element a') =
            if anonymous a
            then "dash-option-generated-" +:+
                   pretty (c + length (filter (λ this, Is_true (anonymous this)) (take i l)))%nat
            else get_id (element a).
Proof.
  intros Hl. revert c. induction Hl as [|a l Ha Hl IH]; intros c.
  - cbn. split; [lia|]. by intros i a.
  - cbn [connect_all]. rewrite option_connectedCallback_eq by done.
    destruct (connected N a c) as [a' c1] eqn:Ec.
    pose proof (connected_id a c) as Hid. pose proof (connected_counter a c) as Hc.
    rewrite Ec in Hid, Hc. cbn in Hid, Hc. fold (anonymous a) in Hid, Hc.
    destruct (IH c1) as [IHc IHi].
    destruct (connect_all N l c1) as [l' c2] eqn:El. cbn [fst snd] in IHc, IHi |- *.
    assert (c1 = c + if anonymous a then 1 else 0)%nat as Hc1
      by (rewrite Hc; destruct (anonymous a); lia).
    assert (∀ l0, length (filter (λ this, Is_true (anonymous this)) (a :: l0))
              = ((if anonymous a then 1 else 0)
                 + length (filter (λ this, Is_true (anonymous this)) l0))%nat) as Hf.
    { intros l0. destruct (anonymous a) eqn:Ea.
      - by rewrite filter_cons_True by (by apply Is_true_true_2).
      - by rewrite filter_cons_False by (by apply Is_true_false_2). }
    split; [rewrite Hf; lia|].
    intros [|i] b Hb.
    + injection Hb as <-. exists a'. split; [done|].
      rewrite Hid. change (take 0 (a :: l)) with (@nil Host).
      rewrite filter_nil. cbn [length]. by rewrite Nat.add_0_r.
    + destruct (IHi i b Hb) as (b' & Hb' & Hidb). exists b'. split; [done|].
      rewrite Hidb. destruct (anonymous b); [|done]. do 2 f_equal.
      change (take (S i) (a :: l)) with (a :: take i l). rewrite Hf. lia.
Qed.

(** X18: when options are connected one after the other, the counter
    advances by the number of options that had no identifier, and any two
    of those get different identifiers. *)
Theorem connect_all_identifiers l c :
  Forall (λ this, own this !! "id" = None) l →
  (connect_all N l c).2 = (c + length (filter (λ this, Is_true (anonymous this)) l))%nat
  ∧ ∀ i j a b a' b',
      (i < j)%nat → l !! i = Some a → l !! j = Some b →
      anonymous a = true → anonymous b = true →
      (connect_all N l c).1 !! i = Some a' →
      (connect_all N l c).1 !! j = Some b' →
      get_id (element a') ≠ get_id (element b').
Proof.
  intros Hl. destruct (connect_all_spec l c Hl) as [Hc Hi]. split; [done|].
  intros i j a b a' b' Hij Ha Hb Haa Hab Ha' Hb'.
  destruct (Hi i a Ha) as (a2 & Ea & Hida). destruct (Hi j b Hb) as (b2 & Eb & Hidb).
  rewrite Ha' in Ea. rewrite Hb' in Eb. injection Ea as <-. injection Eb as <-.
  rewrite Hida, Hidb, Haa, Hab. intros Heq.
  apply (inj (String.app _)), (inj pretty) in Heq.
  assert (take j l = (take i l ++ a :: take (j - S i) (drop (S i) l))%list) as Et.
  { rewrite <- (take_drop_middle l i a Ha) at 1.
    rewrite take_app_ge by (rewrite length_take; lia). f_equal.
    rewrite length_take_le by (apply Nat.lt_le_incl; by eapply lookup_lt_Some).
    replace (j - i)%nat with (S (j - S i)) by lia. done. }
  rewrite Et, filter_app, length_app in Heq.
  rewrite filter_cons_True in Heq by (by apply Is_true_true_2). cbn in Heq. lia.
Qed.

(** *** Connecting an option again *)

Lemma connected_own this c k :
  own (connected N this c).1 !! k =
    if String.eqb k "value" then None
    else if String.eqb k "selected" then None
    else if String.eqb k "_mounted" then
      (if to_boolean (default JUndefined (own this !! "_mounted"))
       then own this !! "_mounted" else Some (JBool true))
    else own this !! k.
Proof.
  unfold connected. cbn [fst own].
  destruct (String.eqb_spec k "value") as [->|]; [by rewrite lookup_delete_eq|].
  rewrite lookup_delete_ne by done.
  destruct (String.eqb_spec k "selected") as [->|]; [by rewrite lookup_delete_eq|].
  rewrite lookup_delete_ne by done.
  destruct (to_boolean _);
    destruct (String.eqb_spec k "_mounted") as [->|]; try done.
  - by rewrite lookup_insert_eq.
  - by rewrite lookup_insert_ne.
Qed.

Lemma connected_mounted this c :
  to_boolean (default JUndefined (own (connected N this c).1 !! "_mounted")) = true.
Proof.
  rewrite connected_own. cbn [String.eqb Ascii.eqb Bool.eqb].
  by destruct (to_boolean (default JUndefined (own this !! "_mounted"))) eqn:E.
Qed.

(** An option that is mounted, has a [role] and an identifier, and no own
    [selected] or [value], is left as it is. *)
Lemma connected_fixed this c :
  to_boolean (default JUndefined (own this !! "_mounted")) = true →
  hasAttribute "role" (element this) = true →
  String.eqb (get_id (element this)) EmptyString = false →
  own this !! "selected" = None →
  own this !! "value" = None →
  connected N this c = (this, c).
Proof.
  intros Hm Hr Hi Hs Hv. unfold connected. rewrite Hm, Hr, Hi, Hs, Hv.
  rewrite !delete_id by (by rewrite ?lookup_delete_ne). by destruct this.
Qed.

(** X19: an option that is connected again (it is moved in the document,
    or its listbox is) stays as the first connection left it: no second
    copy of the template, the same identifier and attributes, and the
    counter is not advanced.  The first connection copies the template
    once. *)
Theorem option_connected_again this c :
  own this !! "id" = None →
  connectedCallback N (connectedCallback N this c).1 (connectedCallback N this c).2
    = connectedCallback N this c
  ∧ (own this !! "_mounted" = None →
     shadow (connectedCallback N this c).1 = S (shadow this)).
Proof.
  intros Hid. rewrite (option_connectedCallback_eq this) by done. split.
  - rewrite option_connectedCallback_eq by (rewrite connected_own; by cbn).
    rewrite connected_fixed; [by destruct (connected N this c)|..].
    + apply connected_mounted.
    + unfold hasAttribute. rewrite connected_attribute by done.
      done.
    + rewrite connected_id.
      destruct (String.eqb (get_id (element this)) EmptyString) eqn:E; [|done].
      apply generated_not_empty.
    + by rewrite connected_own.
    + by rewrite connected_own.
  - intros Hm. unfold connected. by rewrite Hm.
Qed.

(** X20: a [selected] or a [value] that a script has put on the option
    before the class was defined is taken up at the connection: the own
    property is gone, and the option is selected exactly when the
    [selected] it had was truthy, and has the [value] it had, as a string.
    Without such a property, [selected] and [value] are those of the
    attributes. *)
Theorem option_upgrade this c :
  own this !! "id" = None →
  hasOwnProperty "selected" (connectedCallback N this c).1 = false
  ∧ hasOwnProperty "value" (connectedCallback N this c).1 = false
  ∧ get_selected (element (connectedCallback N this c).1)
    = match own this !! "selected" with
      | Some v => to_boolean v
      | None => get_selected (element this)
      end
  ∧ ListboxOption.get_value (element (connectedCallback N this c).1)
    = match own this !! "value" with
      | Some v => JStr (to_string N v)
      | None => ListboxOption.get_value (element this)
      end.
Proof.
  intros Hid. rewrite option_connectedCallback_eq by done. split_and!.
  - unfold hasOwnProperty. rewrite connected_own.
    apply bool_decide_eq_false_2. by intros [??].
  - unfold hasOwnProperty. rewrite connected_own.
    apply bool_decide_eq_false_2. by intros [??].
  - unfold connected. cbn [fst element].
    destruct (hasAttribute "role" (element this)),
      (String.eqb (get_id (element this)) EmptyString),
      (own this !! "value"), (own this !! "selected");
      rewrite ?get_selected_set_value,
        ?(proj2 (ListboxFacts.get_selected_set_selected _ _));
      first [done | unfold get_selected, hasAttribute; by through].
  - unfold connected. cbn [fst element].
    destruct (hasAttribute "role" (element this)),
      (String.eqb (get_id (element this)) EmptyString),
      (own this !! "value"), (own this !! "selected");
      rewrite ?get_value_set_value, ?ListboxFacts.get_value_set_selected;
      first [done | unfold ListboxOption.get_value, getAttribute; by through].
Qed.
End OptionHostFacts.

(** *** Runs on concrete options *)

(** X17, run: an option without identifier, connected when the counter
    is 7. *)
Lemma connectedCallback_identifier_run :
  let this := unconnected (option_element false (Some "a")) ∅ in
  own this !! "id" = None
  ∧ anonymous this = true
  ∧ get_id (element (connectedCallback integer_to_string this 7).1)
    = "dash-option-generated-" +:+ pretty 7%nat
  ∧ (connectedCallback integer_to_string this 7).2 = 8%nat.
Proof.
  split; [reflexivity|]. split; [reflexivity|].
  apply (connectedCallback_identifier integer_to_string
           (unconnected (option_element false (Some "a")) ∅) 7); reflexivity.
Defined.

(** X18, run: three options, the second with an identifier of its
    own. *)
Lemma connect_all_identifiers_run :
  let l := [unconnected (option_element false (Some "a")) ∅;
            unconnected {| ListboxOption.attributes := {["id" := "b"]} |} ∅;
            unconnected (option_element true None) ∅] in
  Forall (λ this, own this !! "id" = None) l
  ∧ (connect_all integer_to_string l 0).2
    = (0 + length (filter (λ this, Is_true (anonymous this)) l))%nat
  ∧ ∀ i j a b a' b',
      (i < j)%nat → l !! i = Some a → l !! j = Some b →
      anonymous a = true → anonymous b = true →
      (connect_all integer_to_string l 0).1 !! i = Some a' →
      (connect_all integer_to_string l 0).1 !! j = Some b' →
      get_id (element a') ≠ get_id (element b').
Proof.
  assert (Forall (λ this : Host, own this !! "id" = None)
            [unconnected (option_element false (Some "a")) ∅;
             unconnected {| ListboxOption.attributes := {["id" := "b"]} |} ∅;
             unconnected (option_element true None) ∅]) as Hl
    by (repeat first [apply Forall_nil_2 | apply Forall_cons_2; [reflexivity|]]).
  split; [exact Hl|].
  apply (connect_all_identifiers integer_to_string _ 0 Hl).
Defined.

(** X19, run: an option with a stale own [selected], connected twice. *)
Lemma option_connected_again_run :
  let this := unconnected (option_element false (Some "a")) {["selected" := JBool true]} in
  let r := connectedCallback integer_to_string this 3 in
  own this !! "id" = None
  ∧ connectedCallback integer_to_string r.1 r.2 = r
  ∧ (own this !! "_mounted" = None → shadow r.1 = S (shadow this)).
Proof.
  split; [reflexivity|].
  apply (option_connected_again integer_to_string
           (unconnected (option_element false (Some "a")) {["selected" := JBool true]}) 3).
  reflexivity.
Defined.

(** X20, run: an option that was given [selected = 1] and [value = null]
    before the class was defined. *)
Lemma option_upgrade_run :
  let this := unconnected (option_element false (Some "a"))
                {["selected" := @JNum integer_number (Some 1); "value" := JNull]} in
  let r := connectedCallback integer_to_string this 0 in
  own this !! "id" = None
  ∧ hasOwnProperty "selected" r.1 = false
  ∧ hasOwnProperty "value" r.1 = false
  ∧ get_selected (element r.1)
    = match own this !! "selected" with
      | Some v => to_boolean v
      | None => get_selected (element this)
      end
  ∧ ListboxOption.get_value (element r.1)
    = match own this !! "value" with
      | Some v => JStr (to_string integer_to_string v)
      | None => ListboxOption.get_value (element this)
      end.
Proof.
  split; [reflexivity|].
  apply (option_upgrade integer_to_string
           (unconnected (option_element false (Some "a"))
              {["selected" := @JNum integer_number (Some 1); "value" := JNull]}) 0).
  reflexivity.
Defined.
End OptionHostFacts.

Module ListboxHostFacts.
Import ListboxOption Listbox ListboxHost.
Section ListboxHostFacts.
Context `{JsNumber}.

Implicit Types (this : Host) (v : value) (l : list move).

(** *** The steps of [connectedCallback()] *)

Lemma listbox_get_mounted this :
  get "_mounted" this = (Normal (default JUndefined (own this !! "_mounted")), this).
Proof.
  unfold get, inspect, mbind, HM_bind. by destruct (own this !! "_mounted").
Qed.

Lemma listbox_mount_eq this :
  mount this =
    (Normal tt,
     {| element := element this;
        own := <["_mounted" := JBool true]> (own this);
        shadow := S (shadow this);
        listeners := listeners this |}).
Proof.
  unfold mount, set, update, inspect, mbind, HM_bind. cbn.
  by destruct (own this !! "_mounted").
Qed.

Lemma listbox_upgradeProperty_value this :
  upgradeProperty "value" this =
    (Normal tt,
     {| element := match own this !! "value" with
                   | Some v => (set_value v (element this)).2
                   | None => element this
                   end;
        own := delete "value" (own this);
        shadow := shadow this;
        listeners := listeners this |}).
Proof.
  unfold upgradeProperty, hasOwnProperty, get, set, update, inspect, lift, mbind, HM_bind.
  destruct (own this !! "value") as [v|] eqn:E.
  - rewrite bool_decide_eq_true_2 by (by eexists). cbn. rewrite E. cbn.
    rewrite lookup_delete_eq. cbn.
    destruct (ListboxFacts.set_value_returns v (element this)) as [e He].
    by rewrite He.
  - rewrite bool_decide_eq_false_2 by (by intros [??]).
    rewrite delete_id by done. by destruct this.
Qed.

(** [connectedCallback()] returns, and is [connected]. *)
Lemma listbox_connectedCallback_eq this :
  connectedCallback this = (Normal tt, connected this).
Proof.
  unfold connectedCallback, connected, defaults.
  unfold mbind at 1. unfold HM_bind at 1. rewrite listbox_get_mounted.
  set (mounted := to_boolean (default JUndefined (own this !! "_mounted"))).
  assert (∀ h : Host, own h !! "value" = own this !! "value" →
    element h = element this →
    (role ← inspect (hasAttribute "role");
     (if role : bool then mret tt else lift (setAttribute "role" "listbox"));;
     tabindex ← inspect (hasAttribute "tabindex");
     (if tabindex : bool then mret tt else lift (setAttribute "tabindex" "0"));;
     upgradeProperty "value";;
     update (λ this,
       {| element := element this; own := own this; shadow := shadow this;
          listeners := listeners this ∪ {["focus"]} ∪ {["click"]} ∪ {["keydown"]} |})) h
    = (Normal tt,
       {| element :=
            let e := element this in
            let e :=
              if bool_decide (is_Some (attributes e !! "role")) then e
              else (setAttribute "role" "listbox" e).2 in
            let e :=
              if bool_decide (is_Some (attributes e !! "tabindex")) then e
              else (setAttribute "tabindex" "0" e).2 in
            match own this !! "value" with Some v => (set_value v e).2 | None => e end;
          own := delete "value" (own h);
          shadow := shadow h;
          listeners := listeners h ∪ {["focus"]} ∪ {["click"]} ∪ {["keydown"]} |})) as Hrest.
  { intros [eh oh sh lh] Hv He. cbn [element own] in Hv, He. subst eh.
    unfold mbind, HM_bind, inspect, hasAttribute. cbv zeta.
    unfold lift, setAttribute, modify.
    cbn [mret HM_ret fst snd element with_element attributes].
    destruct (bool_decide (is_Some (attributes (element this) !! "role")));
      cbn [mret HM_ret fst snd element with_element attributes];
      match goal with
      | |- context [bool_decide (is_Some (?m !! "tabindex"))] =>
          destruct (bool_decide (is_Some (m !! "tabindex")))
      end;
      cbn [mret HM_ret fst snd element with_element attributes];
      rewrite listbox_upgradeProperty_value; cbn; by rewrite Hv. }
  destruct mounted; cbn [negb].
  - unfold mbind at 1. unfold HM_bind at 1. cbn [mret HM_ret]. by rewrite Hrest.
  - unfold mbind at 1. unfold HM_bind at 1. rewrite listbox_mount_eq.
    rewrite Hrest; [done| |done]. cbn. by rewrite lookup_insert_ne.
Qed.

(** *** What the connection leaves and gives *)

Lemma decide_present (m : gmap string string) k :
  bool_decide (is_Some (m !! k)) = match m !! k with Some _ => true | None => false end.
Proof.
  destruct (m !! k).
  - apply bool_decide_eq_true_2. by eexists.
  - apply bool_decide_eq_false_2. by intros [??].
Qed.

Lemma defaults_attributes e k :
  attributes (defaults e) !! k =
    if String.eqb k "role" then Some (default "listbox" (attributes e !! "role"))
    else if String.eqb k "tabindex" then Some (default "0" (attributes e !! "tabindex"))
    else attributes e !! k.
Proof.
  unfold defaults, setAttribute, modify. cbv zeta. cbn [snd attributes].
  rewrite (decide_present (attributes e)).
  destruct (attributes e !! "role") as [r|] eqn:Er; cbn [snd attributes];
    rewrite decide_present, ?lookup_insert_ne by done;
    destruct (attributes e !! "tabindex") as [t|] eqn:Et; cbn [snd attributes];
    (destruct (String.eqb_spec k "role") as [->|];
      [by rewrite ?lookup_insert_ne, ?lookup_insert_eq, ?Er by done|]);
    (destruct (String.eqb_spec k "tabindex") as [->|];
      [by rewrite ?lookup_insert_eq, ?lookup_insert_ne, ?Et by done|]);
    by rewrite ?lookup_insert_ne by done.
Qed.

Lemma defaults_options e : options (defaults e) = options e.
Proof.
  unfold defaults, setAttribute, modify. cbv zeta.
  destruct (bool_decide _); cbn [snd attributes]; by destruct (bool_decide _).
Qed.

Lemma defaults_dispatched e : dispatched (defaults e) = dispatched e.
Proof.
  unfold defaults, setAttribute, modify. cbv zeta.
  destruct (bool_decide _); cbn [snd attributes]; by destruct (bool_decide _).
Qed.

(** A listbox with a [role] and a [tabindex] gets no other. *)
Lemma defaults_fixed e :
  is_Some (attributes e !! "role") → is_Some (attributes e !! "tabindex") →
  defaults e = e.
Proof.
  intros [r Hr] [t Ht]. unfold defaults. cbv zeta.
  rewrite (decide_present (attributes e)), Hr. by rewrite decide_present, Ht.
Qed.

Lemma connected_element_preserved this :
  preserved (defaults (element this)) (element (connected this)).
Proof.
  unfold connected. cbn [element].
  destruct (own this !! "value") as [v|]; [|apply ListboxFacts.preserved_refl].
  apply (ListboxFacts.preserved_perform (SetValue v)).
Qed.

Lemma connected_attributes this k :
  k ≠ "aria-activedescendant" →
  attributes (element (connected this)) !! k =
    if String.eqb k "role"
    then Some (default "listbox" (attributes (element this) !! "role"))
    else if String.eqb k "tabindex"
    then Some (default "0" (attributes (element this) !! "tabindex"))
    else attributes (element this) !! k.
Proof.
  intros Hk. destruct (connected_element_preserved this) as (_ & _ & _ & _ & Ha).
  rewrite Ha by done. apply defaults_attributes.
Qed.

Lemma connected_again this : connected (connected this) = connected this.
Proof.
  assert (own (connected this) !! "value" = None) as Hv
    by (unfold connected; cbn [own]; apply lookup_delete_eq).
  assert (to_boolean (default JUndefined (own (connected this) !! "_mounted")) = true)
    as Hm.
  { unfold connected. cbn [own]. rewrite lookup_delete_ne by done.
    destruct (to_boolean (default JUndefined (own this !! "_mounted"))) eqn:E; [done|].
    by rewrite lookup_insert_eq. }
  unfold connected at 1. rewrite Hv, Hm.
  rewrite defaults_fixed by (rewrite connected_attributes by done; by eexists).
  rewrite delete_id by done.
  destruct (connected this) as [e o s ls] eqn:Ec. cbn [element own shadow listeners].
  f_equal. apply (f_equal listeners) in Ec. cbn [connected listeners] in Ec.
  rewrite <- Ec. apply set_eq. intros x. rewrite !elem_of_union. tauto.
Qed.

(** X21: [connectedCallback()] on a listbox returns and does not throw,
    whatever its options and properties.  The listbox ends with a [role]
    and a [tabindex], its own, else [listbox] and [0]; every other
    attribute but [aria-activedescendant] is as before, and so are the
    value of each option and the events dispatched: connecting dispatches
    nothing.  The three listeners are installed, and a second connection
    changes nothing more. *)
Theorem listbox_connection this :
  ∃ this',
    connectedCallback this = (Normal tt, this')
    ∧ attributes (element this') !! "role"
      = Some (default "listbox" (attributes (element this) !! "role"))
    ∧ attributes (element this') !! "tabindex"
      = Some (default "0" (attributes (element this) !! "tabindex"))
    ∧ (∀ k, k ≠ "role" → k ≠ "tabindex" → k ≠ "aria-activedescendant" →
         attributes (element this') !! k = attributes (element this) !! k)
    ∧ ListboxOption.get_value <$> options (element this')
      = ListboxOption.get_value <$> options (element this)
    ∧ dispatched (element this') = dispatched (element this)
    ∧ listeners this' = listeners this ∪ handled
    ∧ connectedCallback this' = (Normal tt, this').
Proof.
  exists (connected this). rewrite !listbox_connectedCallback_eq, connected_again.
  destruct (connected_element_preserved this) as (_ & Hv & _ & Hd & _).
  rewrite defaults_options in Hv. rewrite defaults_dispatched in Hd.
  split_and!; try done.
  - by rewrite connected_attributes.
  - by rewrite connected_attributes.
  - intros k Hr Ht Hk. rewrite connected_attributes by done.
    by rewrite (proj2 (String.eqb_neq _ _) Hr), (proj2 (String.eqb_neq _ _) Ht).
  - unfold connected, handled. cbn [listeners].
    apply set_eq. intros x. rewrite !elem_of_union. tauto.
Qed.



(** *** In and out of the document *)

Lemma moved_snoc l m this :
  moved (l ++ [m]) this =
    match m with
    | Connect => connected (moved l this)
    | Disconnect => disconnectedCallback (moved l this)
    end.
Proof.
  unfold moved. rewrite foldl_app. cbn [foldl].
  destruct m; [|done]. by rewrite listbox_connectedCallback_eq.
Qed.

(** What the moves of [l] keep, from a listbox that was never in the
    document. *)
Lemma moved_invariant l e o :
  o !! "_mounted" = None →
  let this := moved l (unconnected e o) in
  (if bool_decide (Connect ∈ l)
   then shadow this = 1%nat ∧ own this !! "_mounted" = Some (JBool true)
   else shadow this = 0%nat ∧ own this !! "_mounted" = None)
  ∧ listeners this = match last l with Some Connect => handled | _ => ∅ end.
Proof.
  intros Ho. induction l as [|m l IH] using rev_ind.
  - cbn. by rewrite bool_decide_eq_false_2 by (by intros ?%elem_of_nil).
  - cbv zeta in IH |- *. rewrite moved_snoc, last_snoc.
    destruct IH as [Hs Hl].
    assert (listeners (moved l (unconnected e o)) ⊆ handled) as Hsub.
    { rewrite Hl. destruct (last l) as [[]|]; [done|apply empty_subseteq..]. }
    destruct m.
    + rewrite bool_decide_eq_true_2
        by (apply elem_of_app; right; apply list_elem_of_here).
      split.
      * unfold connected. cbn [shadow own]. rewrite lookup_delete_ne by done.
        destruct (bool_decide (Connect ∈ l)); destruct Hs as [Hs Hm];
          rewrite Hs, Hm; cbn; by rewrite ?Hm, ?lookup_insert_eq.
      * unfold connected, handled. cbn [listeners]. unfold handled in Hsub.
        apply set_eq. intros x. specialize (Hsub x).
        rewrite !elem_of_union in *. tauto.
    + split.
      * cbn [disconnectedCallback shadow own].
        destruct (bool_decide (Connect ∈ l)) eqn:E.
        -- apply bool_decide_eq_true_1 in E.
           rewrite bool_decide_eq_true_2 by (apply elem_of_app; by left). done.
        -- apply bool_decide_eq_false_1 in E.
           rewrite bool_decide_eq_false_2; [done|].
           intros [?|Hin%list_elem_of_singleton]%elem_of_app; done.
      * cbn [disconnectedCallback listeners]. unfold handled in Hsub.
        apply set_eq. intros x. specialize (Hsub x).
        rewrite !elem_of_difference, !elem_of_union in *.
        rewrite elem_of_empty. tauto.
Qed.

(** X23: however often the listbox is put into the document and taken
    out, the template is copied into its shadow root once, at the first
    connection, and the listbox listens to [focus], [click] and [keydown]
    exactly when the last move was a connection: no listener is left
    behind and none is installed twice. *)
Theorem listbox_moved l e o :
  o !! "_mounted" = None →
  shadow (moved l (unconnected e o)) = (if bool_decide (Connect ∈ l) then 1 else 0)%nat
  ∧ listeners (moved l (unconnected e o))
    = match last l with Some Connect => handled | _ => ∅ end.
Proof.
  intros Ho. destruct (moved_invariant l e o Ho) as [Hs Hl]. split; [|done].
  by destruct (bool_decide (Connect ∈ l)); destruct Hs.
Qed.
End ListboxHostFacts.

(** X23, run: a listbox of two options is put into the document, taken
    out and put in again. *)
Lemma listbox_moved_run :
  let l := [Connect; Disconnect; Connect] in
  let e := listbox_of [option_element false (Some "a"); option_element true (Some "b")] in
  (∅ : gmap string value) !! "_mounted" = None
  ∧ shadow (moved l (unconnected e ∅)) = (if bool_decide (Connect ∈ l) then 1 else 0)%nat
  ∧ listeners (moved l (unconnected e ∅))
    = match last l with Some Connect => handled | _ => ∅ end.
Proof.
  split; [reflexivity|].
  apply (listbox_moved [Connect; Disconnect; Connect]
           (listbox_of [option_element false (Some "a"); option_element true (Some "b")]) ∅).
  reflexivity.
Defined.
End ListboxHostFacts.
